(** * Data_handeling: the catalog comparison pipeline

    A shallow embedding of [compare.py], [exl_file.py] and [Woocommerce.py].

    Boundary of the model.  The frames returned by [pd.read_csv] and
    [pd.read_excel] and the decoded JSON body of the catalog API are the
    inputs; the text of the CSV files, pandas' dtype inference and the
    network are not modelled.  [pd.read_csv] with a [chunksize] infers the
    types of every chunk from the rows of that chunk, so the frames it
    yields are inputs as well and are not cut out of the frame read at
    once.  A cell holds a Python [str], an [int] or the
    missing value (the float [nan]).  The model is exact for columns of text
    with or without missing values and for columns of integers; a column
    pandas holds as [float64] (numbers with a missing value among them, or
    missing values only) prints its numbers as floats and turns the rows of
    [iterrows] into floats, and is outside the model, as are other floats
    and booleans.  [astype(str)] is element-wise [str()], as in pandas 1.x
    and 2.x.  A Python [str] is a Rocq [string] whose characters are the
    code points below 256; on that range [str.strip] and [str.lower] are
    modelled exactly. *)

From Stdlib Require Import ZArith DecimalString Ascii String.
From stdpp Require Import gmap strings list fin_maps.

(** ** Python text primitives *)

Module PyStr.

(** [c.isspace()] for a code point below 256: TAB..CR, FS..US, SPACE,
    NEL (0x85) and NBSP (0xA0). *)
Definition isspace (c : ascii) : bool :=
  let n := nat_of_ascii c in
  ((9 <=? n) && (n <=? 13)) || ((28 <=? n) && (n <=? 32))
  || (n =? 133) || (n =? 160).

(** [c.lower()] for a code point below 256: A..Z and the Latin-1 capitals
    0xC0..0xDE except the multiplication sign 0xD7 move up by 32. *)
Definition lower_char (c : ascii) : ascii :=
  let n := nat_of_ascii c in
  if ((65 <=? n) && (n <=? 90))
     || ((192 <=? n) && (n <=? 222) && negb (n =? 215))
  then ascii_of_nat (n + 32) else c.

(** [s.lower()] *)
Fixpoint lower (s : string) : string :=
  match s with
  | EmptyString => EmptyString
  | String c s' => String (lower_char c) (lower s')
  end.

(** [s.lstrip()] *)
Fixpoint lstrip (s : string) : string :=
  match s with
  | EmptyString => EmptyString
  | String c s' => if isspace c then lstrip s' else s
  end.

(** [s.rstrip()] *)
Fixpoint rstrip (s : string) : string :=
  match s with
  | EmptyString => EmptyString
  | String c s' =>
      match rstrip s' with
      | EmptyString => if isspace c then EmptyString else String c EmptyString
      | r => String c r
      end
  end.

(** [s.strip()]: both ends. *)
Definition strip (s : string) : string := lstrip (rstrip s).

(** [s.startswith(p)] *)
Fixpoint startswith (p s : string) : bool :=
  match p, s with
  | EmptyString, _ => true
  | String a p', String b s' => if decide (a = b) then startswith p' s' else false
  | String _ _, EmptyString => false
  end.

(** [s.replace(old, new)] for a non-empty [old]: the occurrences of [old]
    are found left to right and do not overlap.  [skip] counts the
    characters of a matched occurrence that are still to be passed over. *)
Fixpoint replace_from (old new : string) (skip : nat) (s : string) : string :=
  match s with
  | EmptyString => EmptyString
  | String c s' =>
      match skip with
      | S k => replace_from old new k s'
      | O =>
          if startswith old s
          then new +:+ replace_from old new (String.length old - 1) s'
          else String c (replace_from old new 0 s')
      end
  end.

Definition replace (old new s : string) : string := replace_from old new 0 s.

(** [old in s] *)
Fixpoint contains (old s : string) : bool :=
  startswith old s ||
  match s with
  | EmptyString => false
  | String _ s' => contains old s'
  end.

(** [str(z)] for a Python [int]. *)
Definition of_int (z : Z) : string := NilZero.string_of_int (Z.to_int z).

End PyStr.

(** ** Python values, exceptions and frames *)

(** What a cell of a frame holds. *)
Inductive value : Type :=
  | VStr (s : string)
  | VInt (z : Z)
  | VNaN.

#[global] Instance value_eq_dec : EqDecision value.
Proof. solve_decision. Defined.

(** [str(v)] *)
Definition py_str (v : value) : string :=
  match v with
  | VStr s => s
  | VInt z => PyStr.of_int z
  | VNaN => "nan"
  end.

Inductive exn : Type :=
  | KeyError (key : string)
  | ValueError (msg : string)
  | AttributeError (name : string).

Inductive result (A : Type) : Type :=
  | Ok (a : A)
  | Raise (e : exn).
Arguments Ok {A} a.
Arguments Raise {A} e.

#[global] Instance result_ret : MRet result := @Ok.
#[global] Instance result_bind : MBind result := λ A B f m,
  match m with
  | Ok a => f a
  | Raise e => Raise e
  end.

Definition raises {A} (m : result A) : Prop :=
  match m with Ok _ => False | Raise _ => True end.

#[global] Instance raises_dec {A} (m : result A) : Decision (raises m).
Proof. destruct m; simpl; apply _. Defined.

(** A Series is the list of its cells; a DataFrame has [nrows] index
    entries and named columns. *)
Abbreviation Series := (list value).

Record DataFrame : Type := mkFrame {
  nrows : nat;
  columns : gmap string (list value)
}.

(** Every column of a pandas frame is as long as its index. *)
Definition wf_frame (df : DataFrame) : Prop :=
  map_Forall (λ _ col, length col = nrows df) (columns df).

#[global] Instance wf_frame_dec df : Decision (wf_frame df).
Proof. unfold wf_frame. apply _. Defined.

Definition has_column (df : DataFrame) (c : string) : Prop :=
  is_Some (columns df !! c).

#[global] Instance has_column_dec df c : Decision (has_column df c).
Proof. unfold has_column. apply _. Defined.

(** [df[c]] *)
Definition getitem (df : DataFrame) (c : string) : result Series :=
  match columns df !! c with
  | Some col => Ok col
  | None => Raise (KeyError c)
  end.

(** [df[c] = col] *)
Definition setitem (df : DataFrame) (c : string) (col : Series) : DataFrame :=
  mkFrame (nrows df) (<[c := col]> (columns df)).

(** [s.astype(str)], [s.str.strip()], [s.str.lower()] on a Series. *)
Definition astype_str (s : Series) : list string := py_str <$> s.
Definition str_strip (s : list string) : list string := PyStr.strip <$> s.
Definition str_lower (s : list string) : list string := PyStr.lower <$> s.

(** The chain [.astype(str).str.strip().str.lower()]. *)
Definition clean (s : Series) : list string :=
  str_lower (str_strip (astype_str s)).

(** [pd.isna(v)] *)
Definition isna (v : value) : bool :=
  match v with
  | VNaN => true
  | _ => false
  end.

(** The Normalizer on one value: [str(v).strip().lower()]. *)
Definition normalize (v : value) : string := PyStr.lower (PyStr.strip (py_str v)).

(** [v in S] for a Python set of [str]: only a [str] can be a member. *)
#[global] Instance value_elem_of_keys : ElemOf value (gset string) := λ v S,
  match v with
  | VStr s => s ∈ S
  | _ => False
  end.

#[global] Instance value_elem_of_keys_dec (v : value) (S : gset string) :
  Decision (v ∈ S).
Proof. destruct v; unfold elem_of, value_elem_of_keys; apply _. Defined.

(** [s.isin(values)] for a list-like or a set [values]. *)
Definition isin {C} `{ElemOf value C} `{∀ (v : value) (X : C), Decision (v ∈ X)}
    (s : Series) (values : C) : list bool :=
  (λ v, bool_decide (v ∈ values)) <$> s.

(** [~mask] *)
Definition invert (mask : list bool) : list bool := negb <$> mask.

(** Selection of the cells of [col] where [mask] holds. *)
Fixpoint select (mask : list bool) (col : Series) : Series :=
  match mask, col with
  | b :: mask', v :: col' => if b then v :: select mask' col' else select mask' col'
  | _, _ => []
  end.

(** [df.loc[mask, c].tolist()] *)
Definition loc (df : DataFrame) (mask : list bool) (c : string) : result (list value) :=
  col ← getitem df c; mret (select mask col).

(** [df.iterrows()]: the index and the row, a mapping from column names. *)
Definition iterrows (df : DataFrame) : list (nat * gmap string value) :=
  (λ i, (i, omap (λ col : list value, col !! i) (columns df))) <$> seq 0 (nrows df).

(** [row[c]] *)
Definition row_get (row : gmap string value) (c : string) : result value :=
  match row !! c with
  | Some v => Ok v
  | None => Raise (KeyError c)
  end.

(** ** compare.py *)

(** [set(df1['ARTIST_TITLE'].astype(str).str.strip().str.lower())] *)
Definition existing_artist_titles (df1 : DataFrame) : result (gset string) :=
  col ← getitem df1 "ARTIST_TITLE"; mret (list_to_set (clean col)).

(** The loop of [compare_csv_texts_efficient] over the rows still to come,
    with the list [unique_ids] built so far. *)
Fixpoint efficient_loop (existing : gset string)
    (rows : list (nat * gmap string value)) (unique_ids : list value)
    : result (list value) :=
  match rows with
  | [] => Ok unique_ids
  | (_, row) :: rows' =>
      v ← row_get row "name";
      let name := PyStr.lower (PyStr.strip (py_str v)) in
      if decide (name ∉ existing)
      then id ← row_get row "id"; efficient_loop existing rows' (unique_ids ++ [id])
      else efficient_loop existing rows' unique_ids
  end.

Definition compare_csv_texts_efficient (df1 df2 : DataFrame) : result (list value) :=
  existing ← existing_artist_titles df1;
  efficient_loop existing (iterrows df2) [].

Definition compare_csv_texts_vectorized (df1 df2 : DataFrame) : result (list value) :=
  a ← getitem df1 "ARTIST_TITLE";
  let df1 := setitem df1 "artist_title_clean" (VStr <$> clean a) in
  n ← getitem df2 "name";
  let df2 := setitem df2 "name_clean" (VStr <$> clean n) in
  name_clean ← getitem df2 "name_clean";
  artist_title_clean ← getitem df1 "artist_title_clean";
  let mask := invert (isin name_clean artist_title_clean) in
  loc df2 mask "id".

(** The column [df1['artist_title_clean']] as line 63 of
    [compare_csv_texts_vectorized] sets it: the argument of [isin]. *)
Definition artist_title_clean (df1 : DataFrame) : result Series :=
  a ← getitem df1 "ARTIST_TITLE";
  let df1 := setitem df1 "artist_title_clean" (VStr <$> clean a) in
  getitem df1 "artist_title_clean".

(** [pd.read_csv(csv2_path, chunksize=k)].  pandas reads the rows of a chunk
    on their own and types every column from the text of these rows alone,
    so a chunk need not hold the cells the same rows have in the frame read
    at once.  The frames the reader yields are therefore inputs of the
    model, like the frame [pd.read_csv(csv2_path)] returns: a catalog file
    read in chunks is given as the function from a chunk size to what the
    reader yields, or raises, at that size.  pandas yields the chunks one
    by one; a file on which the reader fails part-way stands here for a
    reader that raises at the call. *)
Definition chunk_reader : Type := nat → result (list DataFrame).

(** The loop of [compare_csv_texts_chunked] over the chunks still to come. *)
Fixpoint chunked_loop (existing : gset string) (chunks : list DataFrame)
    (unique_ids : list value) : result (list value) :=
  match chunks with
  | [] => Ok unique_ids
  | chunk :: chunks' =>
      n ← getitem chunk "name";
      let chunk := setitem chunk "name_clean" (VStr <$> clean n) in
      name_clean ← getitem chunk "name_clean";
      let mask := invert (isin name_clean existing) in
      chunk_unique_ids ← loc chunk mask "id";
      chunked_loop existing chunks' (unique_ids ++ chunk_unique_ids)
  end.

Definition compare_csv_texts_chunked (df1 : DataFrame) (csv2 : chunk_reader)
    (chunk_size : nat) : result (list value) :=
  existing ← existing_artist_titles df1;
  chunks ← csv2 chunk_size;
  chunked_loop existing chunks [].

(** Frames for examples: an inventory with one column and a catalog of
    (id, name) pairs. *)
Definition inventory_frame (keys : list value) : DataFrame :=
  mkFrame (length keys) {[ "ARTIST_TITLE" := keys ]}.

Definition catalog_frame (rows : list (value * value)) : DataFrame :=
  mkFrame (length rows) (<["id" := rows.*1]> {[ "name" := rows.*2 ]}).

(** What the reader yields for the catalog file with the rows (1, 007) and
    (2, abc).  With chunk size 1 the first chunk has the one name 007, which
    pandas types as the integer 7; from chunk size 2 on the file comes as
    one chunk, in which both names are text. *)
Definition catalog_007_abc : chunk_reader := λ k,
  match k with
  | 0 => Raise (ValueError "'chunksize' must be an integer >=1")
  | 1 => Ok [catalog_frame [(VInt 1, VInt 7)]; catalog_frame [(VInt 2, VStr "abc")]]
  | _ => Ok [catalog_frame [(VInt 1, VStr "007"); (VInt 2, VStr "abc")]]
  end.

(** ** exl_file.py *)

(** What a collaborator hands back: the table it wrote to the upload
    folder, or the [{"Status": 500, "Error": str(e)}] dictionary of its
    [except Exception] clause. *)
Inductive outcome (A : Type) : Type :=
  | Saved (content : A)
  | Status500 (error : exn).
Arguments Saved {A} content.
Arguments Status500 {A} error.

(** [try: ... except Exception as e: ...] *)
Definition handle {A} (m : result A) : outcome A :=
  match m with
  | Ok a => Saved a
  | Raise e => Status500 e
  end.

(** [df[[c1, c2, ...]]]: the named columns only; every one must exist.
    pandas raises one KeyError whose message lists the absent labels; here
    the KeyError carries the first absent label, and only the fact that a
    KeyError is raised is used. *)
Fixpoint select_columns (df : DataFrame) (cs : list string) : result DataFrame :=
  match cs with
  | [] => Ok (mkFrame (nrows df) ∅)
  | c :: cs' =>
      col ← getitem df c;
      rest ← select_columns df cs';
      mret (setitem rest c col)
  end.

(** [s.duplicated(keep='first')]: a cell is marked when an equal cell came
    before it; [seen] lists the cells passed so far. *)
Fixpoint duplicated_from (seen : list value) (s : Series) : list bool :=
  match s with
  | [] => []
  | v :: s' => bool_decide (v ∈ seen) :: duplicated_from (v :: seen) s'
  end.

Definition duplicated (s : Series) : list bool := duplicated_from [] s.

(** [df.drop_duplicates(subset=[c])]: the rows whose cell in column [c]
    is not marked, in every column. *)
Definition drop_duplicates (df : DataFrame) (c : string) : result DataFrame :=
  col ← getitem df c;
  let keep := invert (duplicated col) in
  mret (mkFrame (length (filter (λ b, b = true) keep)) (select keep <$> columns df)).

(** [s + t] for a Series of [str] and a [str], and for two Series. *)
Definition str_add_scalar (s : list string) (t : string) : list string :=
  (λ a, a +:+ t) <$> s.

Definition str_add (s1 s2 : list string) : list string :=
  zip_with String.append s1 s2.

(** [df["ARTIST"].astype(str) + " - " + df["TITLE"].astype(str)] *)
Definition artist_title_column (artist title : Series) : Series :=
  VStr <$> str_add (str_add_scalar (astype_str artist) " - ") (astype_str title).

(** The body of [artist_title_to_csv] from the frame read by
    [pd.read_excel] to the frame written by [to_csv]. *)
Definition artist_title_to_csv (df : DataFrame) : outcome DataFrame :=
  handle (
    df_selected ← select_columns df ["ARTIST"; "TITLE"];
    artist ← getitem df_selected "ARTIST";
    title ← getitem df_selected "TITLE";
    let df_selected :=
      setitem df_selected "ARTIST_TITLE" (artist_title_column artist title) in
    df_selected ← drop_duplicates df_selected "ARTIST_TITLE";
    select_columns df_selected ["ARTIST_TITLE"]).

(** ** Woocommerce.py *)

(** Field values of the items in the JSON body of the catalog API. *)
Inductive json : Type :=
  | JNull
  | JBool (b : bool)
  | JInt (z : Z)
  | JStr (s : string).

(** [item[k]] *)
Definition item_get (item : gmap string json) (k : string) : result json :=
  match item !! k with
  | Some v => Ok v
  | None => Raise (KeyError k)
  end.

(** [v.replace(old, new)]: only a [str] has the method. *)
Definition json_replace (v : json) (old new : string) : result string :=
  match v with
  | JStr s => Ok (PyStr.replace old new s)
  | _ => Raise (AttributeError "replace")
  end.

(** The list comprehension that builds [filtered_data]. *)
Fixpoint filtered_data (data : list (gmap string json)) : result (list (json * string)) :=
  match data with
  | [] => Ok []
  | item :: data' =>
      id ← item_get item "id";
      raw ← item_get item "name";
      name ← json_replace raw "&amp;" "&";
      rest ← filtered_data data';
      mret ((id, name) :: rest)
  end.

(** The body of [save_id_name_to_csv] from the decoded response to the rows
    given to [csv.DictWriter]. *)
Definition save_id_name_to_csv (data : list (gmap string json)) : outcome (list (json * string)) :=
  handle (filtered_data data).

(** The cell [pd.read_csv] gives for an identifier written by the catalog
    collaborator, in a column whose cells are read back as they were
    written: an integer as an integer, a text as that text.  (A text of
    digits such as "007" is read back so only in a column that holds other
    text as well.) *)
Definition id_cell (v : json) : value :=
  match v with
  | JInt z => VInt z
  | JStr s => VStr s
  | JBool true => VStr "True"
  | JBool false => VStr "False"
  | JNull => VNaN
  end.

(** The frame the comparison reads from the file written from [rows] when
    the file is read back as written: the identifier column and the name
    column, each name as the text that was written.  [pd.read_csv] does not
    read every file back so (the names "NA" and "" come back as missing
    values, a column of digits as integers); this frame stands for the
    files it does, and is used for the endpoint only. *)
Definition woo_frame (rows : list (json * string)) : DataFrame :=
  mkFrame (length rows)
          (<["id" := id_cell <$> rows.*1]> {[ "name" := VStr <$> rows.*2 ]}).

(** ** Notions of the specification *)

(** The catalog records, (identifier, name) in row order. *)
Definition records (ids names : Series) : list (value * value) := zip ids names.

(** A record is unmatched when its normalized name is none of the
    normalized inventory keys. *)
Definition unmatched (inventory : Series) (r : value * value) : Prop :=
  normalize r.2 ∉ normalize <$> inventory.

#[global] Instance unmatched_dec inventory r : Decision (unmatched inventory r).
Proof. unfold unmatched. apply _. Defined.

(** The identifiers of the unmatched records, in catalog order. *)
Definition expected_result (inventory ids names : Series) : list value :=
  (filter (unmatched inventory) (records ids names)).*1.


(** What [filtered_data] holds for an item of the response: its identifier
    and its name with the entity replaced. *)
Definition decoded (item : gmap string json) (row : json * string) : Prop :=
  item !! "id" = Some row.1
  ∧ ∃ name, item !! "name" = Some (JStr name)
            ∧ row.2 = PyStr.replace "&amp;" "&" name.

(** The cells of a column, none when the frame has no such column. *)
Definition column (df : DataFrame) (c : string) : Series :=
  default [] (columns df !! c).

(** A chunk with the two catalog columns, and the catalog records of the
    chunks in the order the reader yields them. *)
Definition catalog_chunk (chunk : DataFrame) : Prop :=
  has_column chunk "id" ∧ has_column chunk "name".

Definition chunk_records (chunks : list DataFrame) : list (value * value) :=
  chunks ≫= (λ chunk, records (column chunk "id") (column chunk "name")).

(** The three columns the comparison reads. *)
Definition required_columns (df1 df2 : DataFrame) : Prop :=
  has_column df1 "ARTIST_TITLE" ∧ has_column df2 "id" ∧ has_column df2 "name".

#[global] Instance required_columns_dec df1 df2 : Decision (required_columns df1 df2).
Proof. unfold required_columns. apply _. Defined.

(** ** app.py *)

(** Why the response model could not be built or the comparison failed:
    both end in "Internal server error". *)
Inductive internal_cause : Type :=
  | Raised (e : exn)
  | ValidationError.

(** The HTTPException (status 500) of [process_data], by the step that
    raised it. *)
Inductive http_error : Type :=
  | ExcelFailed (e : exn)
  | WooFailed (e : exn)
  | InternalError (cause : internal_cause).

(** The fields of [ProcessResponse] that depend on the data. *)
Record ProcessResponse : Type := mkResponse {
  status : nat;
  unique_ids : list value;
  unique_count : nat
}.

(** [isinstance(v, int)] *)
Definition is_int (v : value) : bool :=
  match v with
  | VInt _ => true
  | _ => false
  end.

(** The body of [process_data] from the sheet and the response body the two
    collaborators fetch.  Each collaborator's file is read back cell for
    cell.  [accepts] stands for pydantic's validation of [unique_ids]
    against [List[int]]. *)
Definition process_data (accepts : list value → bool)
    (sheet : DataFrame) (data : list (gmap string json)) : http_error + ProcessResponse :=
  match artist_title_to_csv sheet with
  | Status500 e => inl (ExcelFailed e)
  | Saved excel_csv =>
      match save_id_name_to_csv data with
      | Status500 e => inl (WooFailed e)
      | Saved woo_rows =>
          match compare_csv_texts_vectorized excel_csv (woo_frame woo_rows) with
          | Raise e => inl (InternalError (Raised e))
          | Ok comparison_result =>
              if accepts comparison_result
              then inr (mkResponse 200 comparison_result (length comparison_result))
              else inl (InternalError ValidationError)
          end
      end
  end.

(** ** Notions of the properties *)

(** A text made of white space only. *)
Fixpoint all_space (s : string) : bool :=
  match s with
  | EmptyString => true
  | String c s' => PyStr.isspace c && all_space s'
  end.

(** The rows [drop_duplicates] keeps of a column. *)
Definition kept (col : Series) : Series := select (invert (duplicated col)) col.

(** An item [filtered_data] can turn into a row. *)
Definition item_ok (item : gmap string json) : Prop :=
  is_Some (item !! "id") ∧ ∃ name, item !! "name" = Some (JStr name).

#[global] Instance item_ok_dec item : Decision (item_ok item).
Proof.
  unfold item_ok. destruct (item !! "name") as [[| | |name]|].
  1-3,5: right; by intros [_ [? ?]].
  destruct (decide (is_Some (item !! "id"))) as [Hid|Hid].
  - left. eauto.
  - right. by intros [? _].
Defined.

(** The exception a malformed item makes [filtered_data] raise: the fields
    are read in the order [id], [name], and [replace] is called last. *)
Definition item_error (item : gmap string json) : exn :=
  match item !! "id" with
  | None => KeyError "id"
  | Some _ =>
      match item !! "name" with
      | None => KeyError "name"
      | Some _ => AttributeError "replace"
      end
  end.

(** * Properties *)

Example strip_example : PyStr.strip "  Abbey Road	 " = "Abbey Road".
Proof. reflexivity. Qed.

Example lower_example : PyStr.lower "Beatles - Abbey ROAD" = "beatles - abbey road".
Proof. reflexivity. Qed.

Example replace_example :
  PyStr.replace "&amp;" "&" "Simon &amp; Garfunkel &amp;amp; Co" = "Simon & Garfunkel &amp; Co".
Proof. reflexivity. Qed.

Example of_int_example : PyStr.of_int (-1205) = "-1205" ∧ PyStr.of_int 0 = "0".
Proof. split; reflexivity. Qed.

Example scenario1 :
  let inv := inventory_frame [VStr "Beatles - Abbey Road"] in
  let cat := catalog_frame [(VInt 1, VStr "Beatles - Abbey Road");
                            (VInt 2, VStr "Beatles - Abbey Road  ");
                            (VInt 3, VStr "Rolling Stones - Exile")] in
  compare_csv_texts_efficient inv cat = Ok [VInt 3]
  ∧ compare_csv_texts_vectorized inv cat = Ok [VInt 3]
  ∧ compare_csv_texts_chunked inv
      (λ _, Ok [catalog_frame [(VInt 1, VStr "Beatles - Abbey Road");
                               (VInt 2, VStr "Beatles - Abbey Road  ")];
                catalog_frame [(VInt 3, VStr "Rolling Stones - Exile")]]) 2
    = Ok [VInt 3].
Proof. vm_compute. done. Qed.

Example scenario2 :
  let inv := inventory_frame [] in
  let cat := catalog_frame [(VInt 1, VStr "Anything")] in
  compare_csv_texts_efficient inv cat = Ok [VInt 1]
  ∧ compare_csv_texts_vectorized inv cat = Ok [VInt 1]
  ∧ compare_csv_texts_chunked inv (λ _, Ok [cat]) 100 = Ok [VInt 1].
Proof. vm_compute. done. Qed.

Example scenario3 :
  let inv := inventory_frame [VStr "A - B"; VStr "A - B"] in
  let cat := catalog_frame [(VInt 1, VStr "a - b")] in
  compare_csv_texts_efficient inv cat = Ok []
  ∧ compare_csv_texts_vectorized inv cat = Ok []
  ∧ compare_csv_texts_chunked inv (λ _, Ok [cat]) 100 = Ok [].
Proof. vm_compute. done. Qed.

(** The encoded form of a name does not match the inventory key. *)
Example scenario5_encoded :
  compare_csv_texts_vectorized
    (inventory_frame [VStr "Simon & Garfunkel - Bookends"])
    (catalog_frame [(VInt 11, VStr "Simon &amp; Garfunkel - Bookends")])
  = Ok [VInt 11].
Proof. vm_compute. done. Qed.

(** Two missing values meet under the key "nan": a catalog row without a
    name is held to be matched once the inventory has a row without a key. *)
Example missing_values_match :
  let inv := inventory_frame [VStr "a"; VNaN] in
  let cat := catalog_frame [(VInt 1, VNaN); (VInt 2, VStr "b")] in
  compare_csv_texts_efficient inv cat = Ok [VInt 2]
  ∧ compare_csv_texts_vectorized inv cat = Ok [VInt 2].
Proof. vm_compute. done. Qed.

(** ** Text lemmas *)

Module PyStrFacts.
Import PyStr.

Ltac each_char c := destruct c as [[] [] [] [] [] [] [] []]; vm_compute; reflexivity.

Lemma lower_char_idem c : lower_char (lower_char c) = lower_char c.
Proof. each_char c. Qed.

Lemma isspace_lower_char c : isspace (lower_char c) = isspace c.
Proof. each_char c. Qed.

Lemma lower_idem s : lower (lower s) = lower s.
Proof. induction s as [|c s IH]; simpl; [done|]. by rewrite lower_char_idem, IH. Qed.

Lemma lstrip_lower s : lstrip (lower s) = lower (lstrip s).
Proof.
  induction s as [|c s IH]; simpl; [done|].
  rewrite isspace_lower_char. by destruct (isspace c).
Qed.

Lemma rstrip_lower s : rstrip (lower s) = lower (rstrip s).
Proof.
  induction s as [|c s IH]; simpl; [done|].
  rewrite IH, isspace_lower_char.
  destruct (rstrip s); simpl; [by destruct (isspace c)|done].
Qed.

Lemma strip_lower s : strip (lower s) = lower (strip s).
Proof. unfold strip. by rewrite rstrip_lower, lstrip_lower. Qed.

Lemma lstrip_idem s : lstrip (lstrip s) = lstrip s.
Proof.
  induction s as [|c s IH]; simpl; [done|].
  destruct (isspace c) eqn:Hc; [done|]. simpl. by rewrite Hc.
Qed.

Lemma rstrip_idem s : rstrip (rstrip s) = rstrip s.
Proof.
  induction s as [|c s IH]; simpl; [done|].
  destruct (rstrip s) as [|d r] eqn:Hr.
  - destruct (isspace c) eqn:Hc; simpl; [done|]. by rewrite Hc.
  - change (rstrip (String c (String d r))) with
      (match rstrip (String d r) with
       | EmptyString => if isspace c then EmptyString else String c EmptyString
       | r' => String c r'
       end).
    by rewrite IH.
Qed.

Lemma rstrip_lstrip s : rstrip (lstrip s) = lstrip (rstrip s).
Proof.
  induction s as [|c s IH]; [done|].
  change (lstrip (String c s)) with (if isspace c then lstrip s else String c s).
  change (rstrip (String c s)) with
    (match rstrip s with
     | EmptyString => if isspace c then EmptyString else String c EmptyString
     | r' => String c r'
     end).
  destruct (isspace c) eqn:Hc.
  - rewrite IH. destruct (rstrip s); simpl; [done|]. by rewrite Hc.
  - simpl. destruct (rstrip s); simpl; by rewrite Hc.
Qed.

Lemma strip_idem s : strip (strip s) = strip s.
Proof.
  unfold strip. by rewrite rstrip_lstrip, rstrip_idem, lstrip_idem.
Qed.

End PyStrFacts.

Lemma clean_normalize (s : Series) : clean s = normalize <$> s.
Proof.
  unfold clean, str_lower, str_strip, astype_str.
  rewrite <- !list_fmap_compose. done.
Qed.

Lemma normalize_str_idem (s : string) :
  normalize (VStr (normalize (VStr s))) = normalize (VStr s).
Proof.
  unfold normalize; simpl.
  by rewrite PyStrFacts.strip_lower, PyStrFacts.strip_idem, PyStrFacts.lower_idem.
Qed.

(** ** Frames and masks *)

(** One step of the [result] monad. *)
Ltac run := cbn [mbind result_bind mret result_ret].

Lemma getitem_Some df c col : columns df !! c = Some col → getitem df c = Ok col.
Proof. unfold getitem. by intros ->. Qed.

Lemma getitem_None df c : columns df !! c = None → getitem df c = Raise (KeyError c).
Proof. unfold getitem. by intros ->. Qed.

Lemma getitem_setitem_eq df c col : getitem (setitem df c col) c = Ok col.
Proof. unfold getitem, setitem; simpl. by rewrite lookup_insert_eq. Qed.

Lemma getitem_setitem_ne df c c' col :
  c ≠ c' → getitem (setitem df c col) c' = getitem df c'.
Proof. intros Hne. unfold getitem, setitem; simpl. by rewrite lookup_insert_ne. Qed.

Lemma has_column_getitem df c : has_column df c ↔ ∃ col, getitem df c = Ok col.
Proof.
  unfold has_column, getitem. destruct (columns df !! c) as [col|]; split.
  - eauto.
  - intros _. by exists col.
  - by intros [? ?].
  - by intros [? ?].
Qed.

Lemma wf_frame_length df c col :
  wf_frame df → columns df !! c = Some col → length col = nrows df.
Proof. intros Hwf Hc. exact (Hwf c col Hc). Qed.

#[global] Instance VStr_inj : Inj (=) (=) VStr.
Proof. by intros ?? [= ->]. Qed.

Lemma select_filter (Q : value → Prop) `{∀ v, Decision (Q v)} (names ids : Series) :
  select ((λ v, bool_decide (Q v)) <$> names) ids
  = (filter (λ r : value * value, Q r.2) (zip ids names)).*1.
Proof.
  revert ids. induction names as [|n names IH]; intros [|i ids]; simpl; try done.
  rewrite filter_cons. simpl. case_bool_decide; case_decide; try done.
  simpl. by rewrite IH.
Qed.

Lemma mask_series (names inventory : Series) :
  invert (isin (VStr <$> clean names) (VStr <$> clean inventory))
  = (λ v, bool_decide (normalize v ∉ normalize <$> inventory)) <$> names.
Proof.
  unfold invert, isin. rewrite !clean_normalize, <- !list_fmap_compose.
  apply list_fmap_ext. intros _ v _. simpl.
  rewrite bool_decide_not. f_equal. apply bool_decide_ext.
  rewrite (list_fmap_compose normalize VStr). apply (list_elem_of_fmap_inj VStr).
Qed.

Lemma mask_set (names inventory : Series) :
  invert (isin (VStr <$> clean names) (list_to_set (clean inventory) : gset string))
  = (λ v, bool_decide (normalize v ∉ normalize <$> inventory)) <$> names.
Proof.
  unfold invert, isin. rewrite !clean_normalize, <- !list_fmap_compose.
  apply list_fmap_ext. intros _ v _. simpl.
  rewrite bool_decide_not. f_equal. apply bool_decide_ext.
  unfold elem_of at 1, value_elem_of_keys. apply elem_of_list_to_set.
Qed.

(** ** The vectorized strategy *)

Lemma vectorized_spec df1 df2 inventory ids names :
  columns df1 !! "ARTIST_TITLE" = Some inventory →
  columns df2 !! "id" = Some ids →
  columns df2 !! "name" = Some names →
  compare_csv_texts_vectorized df1 df2 = Ok (expected_result inventory ids names).
Proof.
  intros H1 Hid Hname. unfold compare_csv_texts_vectorized.
  rewrite (getitem_Some _ _ _ H1), (getitem_Some _ _ _ Hname). simpl.
  rewrite !getitem_setitem_eq. simpl.
  unfold loc. rewrite getitem_setitem_ne by done.
  rewrite (getitem_Some _ _ _ Hid). simpl.
  unfold mret, result_ret. f_equal.
  rewrite mask_series. apply select_filter.
Qed.

(** ** The row-wise strategy *)

Lemma existing_Some df1 inventory :
  columns df1 !! "ARTIST_TITLE" = Some inventory →
  existing_artist_titles df1 = Ok (list_to_set (clean inventory)).
Proof. intros H. unfold existing_artist_titles. by rewrite (getitem_Some _ _ _ H). Qed.

Lemma existing_None df1 :
  columns df1 !! "ARTIST_TITLE" = None →
  existing_artist_titles df1 = Raise (KeyError "ARTIST_TITLE").
Proof. intros H. unfold existing_artist_titles. by rewrite (getitem_None _ _ H). Qed.

Lemma iterrows_Forall2 {B} (R : gmap string value → B → Prop) df (l : list B) :
  length l = nrows df →
  (∀ i b, l !! i = Some b → R (omap (λ col : list value, col !! i) (columns df)) b) →
  Forall2 (λ row b, R row.2 b) (iterrows df) l.
Proof.
  intros Hlen HR. apply Forall2_same_length_lookup_2.
  - unfold iterrows. by rewrite length_fmap, length_seq.
  - intros i [i' row] b Hrow Hb. unfold iterrows in Hrow.
    rewrite list_lookup_fmap in Hrow.
    destruct (seq 0 (nrows df) !! i) as [j|] eqn:Hj; [|done].
    apply lookup_seq in Hj as [-> _]. simpl in Hrow. injection Hrow as <- <-.
    simpl. by apply HR.
Qed.

Lemma row_lookup df c i :
  omap (λ col : list value, col !! i) (columns df) !! c = columns df !! c ≫= (.!! i).
Proof. apply lookup_omap. Qed.

(** Rows without a [name] column: the first row already fails. *)
Lemma efficient_loop_no_name existing rows acc :
  Forall (λ row : nat * gmap string value, row.2 !! "name" = None) rows →
  efficient_loop existing rows acc
  = match rows with [] => Ok acc | _ => Raise (KeyError "name") end.
Proof.
  destruct 1 as [|[i row] rows Hrow _]; simpl; [done|].
  simpl in Hrow. unfold row_get. by rewrite Hrow.
Qed.

(** The loop against the key set of a given inventory column. *)
Section row_loop.
Context (inventory : Series).
Implicit Types (rows : list (nat * gmap string value)) (acc names : Series).

Lemma elem_of_existing (name : string) :
  name ∈ (list_to_set (clean inventory) : gset string) ↔ name ∈ normalize <$> inventory.
Proof. by rewrite elem_of_list_to_set, clean_normalize. Qed.

(** Rows that carry both catalog columns. *)
Lemma efficient_loop_records rows recs acc :
  Forall2 (λ (row : nat * gmap string value) (r : value * value),
             row.2 !! "id" = Some r.1 ∧ row.2 !! "name" = Some r.2) rows recs →
  efficient_loop (list_to_set (clean inventory)) rows acc
  = Ok (acc ++ (filter (unmatched inventory) recs).*1).
Proof.
  intros HF. revert acc. induction HF as [|[i row] [id name] rows recs [Hid Hname] _ IH];
    intros acc; simpl.
  - by rewrite app_nil_r.
  - simpl in Hid, Hname. unfold row_get. rewrite Hname, Hid. simpl.
    rewrite filter_cons. unfold unmatched at 1. simpl.
    fold (normalize name).
    destruct (decide (normalize name ∉ list_to_set (clean inventory))) as [Hn|Hn];
      rewrite elem_of_existing in Hn.
    + rewrite decide_True by done. rewrite IH. simpl. by rewrite <- app_assoc.
    + rewrite decide_False by done. apply IH.
Qed.

(** Rows with a [name] but no [id] column: the identifier is read only for
    an unmatched row. *)
Lemma efficient_loop_no_id rows names acc :
  Forall2 (λ (row : nat * gmap string value) (name : value),
             row.2 !! "id" = None ∧ row.2 !! "name" = Some name) rows names →
  efficient_loop (list_to_set (clean inventory)) rows acc
  = if decide (Forall (λ name, normalize name ∈ normalize <$> inventory) names)
    then Ok acc else Raise (KeyError "id").
Proof.
  intros HF. revert acc. induction HF as [|[i row] name rows names [Hid Hname] _ IH];
    intros acc; cbn [efficient_loop].
  - by rewrite decide_True.
  - simpl in Hid, Hname. unfold row_get. rewrite Hname, Hid.
    run. fold (normalize name).
    destruct (decide (normalize name ∉ list_to_set (clean inventory))) as [Hn|Hn];
      rewrite elem_of_existing in Hn.
    + rewrite decide_False; [done|]. by intros [? _]%Forall_cons.
    + apply dec_stable in Hn. rewrite IH.
      destruct (decide (Forall _ names)) as [Hall|Hall].
      * rewrite decide_True; [done|]. by constructor.
      * rewrite decide_False; [done|]. by intros [_ ?]%Forall_cons.
Qed.

End row_loop.

Lemma efficient_spec df1 df2 inventory ids names :
  wf_frame df2 →
  columns df1 !! "ARTIST_TITLE" = Some inventory →
  columns df2 !! "id" = Some ids →
  columns df2 !! "name" = Some names →
  compare_csv_texts_efficient df1 df2 = Ok (expected_result inventory ids names).
Proof.
  intros Hwf H1 Hid Hname. unfold compare_csv_texts_efficient.
  rewrite (existing_Some _ _ H1). simpl.
  pose proof (wf_frame_length _ _ _ Hwf Hid) as Lid.
  pose proof (wf_frame_length _ _ _ Hwf Hname) as Lname.
  rewrite (efficient_loop_records inventory _ (records ids names)); [done|].
  apply (iterrows_Forall2 (λ row r, row !! "id" = Some r.1 ∧ row !! "name" = Some r.2)).
  - unfold records. rewrite length_zip_with. lia.
  - intros i [id name] Hr. unfold records in Hr.
    apply lookup_zip_with_Some in Hr as (x & y & [= <- <-] & Hx & Hy).
    rewrite !row_lookup, Hid, Hname. simpl. done.
Qed.

Lemma efficient_raises_inventory df1 df2 :
  columns df1 !! "ARTIST_TITLE" = None →
  compare_csv_texts_efficient df1 df2 = Raise (KeyError "ARTIST_TITLE").
Proof. intros H. unfold compare_csv_texts_efficient. by rewrite (existing_None _ H). Qed.

(** ** The vectorized strategy on frames that lack a column *)

Lemma vectorized_raises_inventory df1 df2 :
  columns df1 !! "ARTIST_TITLE" = None →
  compare_csv_texts_vectorized df1 df2 = Raise (KeyError "ARTIST_TITLE").
Proof. intros H. unfold compare_csv_texts_vectorized. by rewrite (getitem_None _ _ H). Qed.

Lemma vectorized_raises_name df1 df2 inventory :
  columns df1 !! "ARTIST_TITLE" = Some inventory →
  columns df2 !! "name" = None →
  compare_csv_texts_vectorized df1 df2 = Raise (KeyError "name").
Proof.
  intros H1 H2. unfold compare_csv_texts_vectorized.
  by rewrite (getitem_Some _ _ _ H1), (getitem_None _ _ H2).
Qed.

Lemma vectorized_raises_id df1 df2 inventory names :
  columns df1 !! "ARTIST_TITLE" = Some inventory →
  columns df2 !! "name" = Some names →
  columns df2 !! "id" = None →
  compare_csv_texts_vectorized df1 df2 = Raise (KeyError "id").
Proof.
  intros H1 H2 H3. unfold compare_csv_texts_vectorized.
  rewrite (getitem_Some _ _ _ H1), (getitem_Some _ _ _ H2). simpl.
  rewrite !getitem_setitem_eq. simpl. unfold loc.
  rewrite getitem_setitem_ne by done. by rewrite (getitem_None _ _ H3).
Qed.

(** ** The chunked strategy *)

(** The loop works through the chunks in the order they are yielded and
    puts the identifiers of each chunk behind those found before. *)
Lemma chunked_loop_chunks inventory chunks acc :
  Forall catalog_chunk chunks →
  chunked_loop (list_to_set (clean inventory)) chunks acc
  = Ok (acc ++ (filter (unmatched inventory) (chunk_records chunks)).*1).
Proof.
  intros Hchunks. revert acc.
  induction Hchunks as [|chunk chunks [[ids Hid] [names Hname]] _ IH]; intros acc.
  - simpl. by rewrite app_nil_r.
  - cbn [chunked_loop]. rewrite (getitem_Some _ _ _ Hname). run.
    rewrite getitem_setitem_eq. run.
    unfold loc. rewrite getitem_setitem_ne by done.
    rewrite (getitem_Some _ _ _ Hid). run.
    rewrite IH, mask_set, select_filter.
    unfold chunk_records. rewrite bind_cons.
    fold (chunk_records chunks). unfold column. rewrite Hid, Hname. simpl.
    by rewrite filter_app, fmap_app, app_assoc.
Qed.

Lemma chunked_spec df1 csv2 k chunks inventory :
  columns df1 !! "ARTIST_TITLE" = Some inventory →
  csv2 k = Ok chunks →
  Forall catalog_chunk chunks →
  compare_csv_texts_chunked df1 csv2 k
  = Ok ((filter (unmatched inventory) (chunk_records chunks)).*1).
Proof.
  intros H1 Hread Hchunks. unfold compare_csv_texts_chunked.
  rewrite (existing_Some _ _ H1), Hread. run.
  by rewrite chunked_loop_chunks.
Qed.

(** A reader that yields the whole file as one chunk gives what the
    vectorized strategy gives on that frame. *)
Lemma chunked_one_chunk df1 df2 csv2 k :
  csv2 k = Ok [df2] →
  compare_csv_texts_chunked df1 csv2 k = compare_csv_texts_vectorized df1 df2.
Proof.
  intros Hread. unfold compare_csv_texts_chunked.
  destruct (columns df1 !! "ARTIST_TITLE") as [inventory|] eqn:H1.
  2:{ by rewrite existing_None, vectorized_raises_inventory. }
  rewrite (existing_Some _ _ H1), Hread. run. cbn [chunked_loop].
  destruct (columns df2 !! "name") as [names|] eqn:Hname.
  2:{ by rewrite (getitem_None _ _ Hname), (vectorized_raises_name _ _ _ H1 Hname). }
  rewrite (getitem_Some _ _ _ Hname). run. rewrite getitem_setitem_eq. run.
  unfold loc. rewrite getitem_setitem_ne by done.
  destruct (columns df2 !! "id") as [ids|] eqn:Hid.
  2:{ by rewrite (getitem_None _ _ Hid), (vectorized_raises_id _ _ _ _ H1 Hname Hid). }
  rewrite (getitem_Some _ _ _ Hid). run.
  rewrite (vectorized_spec _ _ _ _ _ H1 Hid Hname), mask_set, select_filter. done.
Qed.

(** ** Example frames *)

Lemma wf_inventory_frame keys : wf_frame (inventory_frame keys).
Proof.
  unfold wf_frame, inventory_frame; simpl.
  by apply map_Forall_singleton.
Qed.

Lemma wf_catalog_frame rows : wf_frame (catalog_frame rows).
Proof.
  unfold wf_frame, catalog_frame; simpl.
  apply map_Forall_insert_2; [by rewrite length_fmap|].
  apply map_Forall_singleton. by rewrite length_fmap.
Qed.

Lemma inventory_frame_keys keys :
  columns (inventory_frame keys) !! "ARTIST_TITLE" = Some keys.
Proof. apply lookup_singleton_eq. Qed.

Lemma catalog_frame_id rows : columns (catalog_frame rows) !! "id" = Some rows.*1.
Proof. apply lookup_insert_eq. Qed.

Lemma catalog_frame_name rows : columns (catalog_frame rows) !! "name" = Some rows.*2.
Proof.
  unfold catalog_frame; simpl. rewrite lookup_insert_ne by done.
  apply lookup_singleton_eq.
Qed.

Lemma records_catalog rows : records rows.*1 rows.*2 = rows.
Proof.
  unfold records. induction rows as [|[i n] rows IH]; [done|].
  rewrite !fmap_cons. simpl. f_equal. exact IH.
Qed.

(** ** Counting in a filtered list *)


Lemma elem_of_expected_result inventory ids names id :
  id ∈ expected_result inventory ids names
  ↔ ∃ i name, ids !! i = Some id ∧ names !! i = Some name
              ∧ normalize name ∉ normalize <$> inventory.
Proof.
  unfold expected_result, records. rewrite list_elem_of_fmap. split.
  - intros ([id' name] & -> & [Hun Hin]%list_elem_of_filter).
    apply list_elem_of_lookup in Hin as [i Hi].
    apply lookup_zip_with_Some in Hi as (x & y & [= <- <-] & Hx & Hy).
    by exists i, name.
  - intros (i & name & Hid & Hname & Hun). exists (id, name). split; [done|].
    apply list_elem_of_filter. split; [done|].
    apply list_elem_of_lookup. exists i.
    apply lookup_zip_with_Some. by exists id, name.
Qed.

(** * The claims *)



(** The vectorized strategy returns only when the three columns exist. *)
Lemma vectorized_Ok_columns df1 df2 res :
  compare_csv_texts_vectorized df1 df2 = Ok res →
  ∃ inventory ids names,
    columns df1 !! "ARTIST_TITLE" = Some inventory
    ∧ columns df2 !! "id" = Some ids
    ∧ columns df2 !! "name" = Some names.
Proof.
  intros Hres.
  destruct (columns df1 !! "ARTIST_TITLE") as [inventory|] eqn:H1.
  2:{ by rewrite vectorized_raises_inventory in Hres. }
  destruct (columns df2 !! "name") as [names|] eqn:Hname.
  2:{ by rewrite (vectorized_raises_name _ _ _ H1 Hname) in Hres. }
  destruct (columns df2 !! "id") as [ids|] eqn:Hid.
  2:{ by rewrite (vectorized_raises_id _ _ _ _ H1 Hname Hid) in Hres. }
  by exists inventory, ids, names.
Qed.

Lemma required_columns_lookup df1 df2 :
  required_columns df1 df2 ↔
  ∃ inventory ids names,
    columns df1 !! "ARTIST_TITLE" = Some inventory
    ∧ columns df2 !! "id" = Some ids
    ∧ columns df2 !! "name" = Some names.
Proof.
  unfold required_columns, has_column. split.
  - intros ([inventory ?] & [ids ?] & [names ?]). by exists inventory, ids, names.
  - intros (inventory & ids & names & ? & ? & ?). eauto.
Qed.

(** C2.  The row-wise and the vectorized strategy return the same list on
    frames that carry the three columns, and so does the chunked strategy
    whenever its chunks hold the cells of that frame.  They need not: pandas
    types every chunk from its own rows.  With the inventory keys 007 and
    abc and the catalog rows (1, 007) and (2, abc), the file read at once
    has two text names, both matched, and the row-wise and the vectorized
    strategy return the empty list; read with chunk size 1 the first name is
    the integer 7, its key "7" is no inventory key, and the chunked strategy
    returns [1]. *)
Theorem C2_chunked_strategy_disagrees :
  (∀ df1 df2, wf_frame df2 → required_columns df1 df2 →
     ∃ res, compare_csv_texts_efficient df1 df2 = Ok res
            ∧ compare_csv_texts_vectorized df1 df2 = Ok res
            ∧ ∀ csv2 k chunks,
                csv2 k = Ok chunks → Forall catalog_chunk chunks →
                chunk_records chunks = records (column df2 "id") (column df2 "name") →
                compare_csv_texts_chunked df1 csv2 k = Ok res)
  ∧ (let df1 := inventory_frame [VStr "007"; VStr "abc"] in
     let df2 := catalog_frame [(VInt 1, VStr "007"); (VInt 2, VStr "abc")] in
     compare_csv_texts_efficient df1 df2 = Ok []
     ∧ compare_csv_texts_vectorized df1 df2 = Ok []
     ∧ compare_csv_texts_chunked df1 catalog_007_abc 2 = Ok []
     ∧ compare_csv_texts_chunked df1 catalog_007_abc 1 = Ok [VInt 1]).
Proof.
  split.
  - intros df1 df2 Hwf (inventory & ids & names & H1 & Hid & Hname)%required_columns_lookup.
    exists (expected_result inventory ids names).
    split; [by apply efficient_spec|]. split; [by apply vectorized_spec|].
    intros csv2 k chunks Hread Hchunks Hrecords.
    rewrite (chunked_spec _ _ _ _ _ H1 Hread Hchunks), Hrecords.
    unfold column. by rewrite Hid, Hname.
  - vm_compute. done.
Qed.

(** C6.  Normalizing a normalized key changes nothing:
    normalize(normalize(x)) == normalize(x), for a text x and for any other
    cell, and likewise for the chain of Series operations on a column. *)
Theorem C6_normalize_idempotent (x : value) :
  normalize (VStr (normalize x)) = normalize x
  ∧ ∀ s : Series, clean (VStr <$> clean s) = clean s.
Proof.
  assert (∀ v, normalize (VStr (normalize v)) = normalize v) as Hidem.
  { intros v. change (normalize v) with (normalize (VStr (py_str v))).
    apply normalize_str_idem. }
  split; [apply Hidem|].
  intros s. rewrite !clean_normalize, <- !list_fmap_compose.
  apply list_fmap_ext. intros _ v _. apply Hidem.
Qed.

(** C7.  The chunked strategy returns the same list at two chunk sizes
    whenever the chunks read at the two sizes hold the same cells, and with
    chunk size 1, catalog [(1,x); (2,y); (3,x)] and inventory [x] the result
    is [2].  But the cells depend on the chunk size, because pandas types
    every chunk from its own rows: for the inventory keys 007 and abc and
    the catalog rows (1, 007) and (2, abc) the result is [1] with chunk
    size 1 and the empty list with chunk size 2. *)
Theorem C7_chunk_size_changes_result :
  (∀ df1 csv2 k1 k2 chunks1 chunks2,
     csv2 k1 = Ok chunks1 → csv2 k2 = Ok chunks2 →
     Forall catalog_chunk chunks1 → Forall catalog_chunk chunks2 →
     chunk_records chunks1 = chunk_records chunks2 →
     compare_csv_texts_chunked df1 csv2 k1 = compare_csv_texts_chunked df1 csv2 k2)
  ∧ compare_csv_texts_chunked
      (inventory_frame [VStr "x"])
      (λ _, Ok [catalog_frame [(VInt 1, VStr "x")]; catalog_frame [(VInt 2, VStr "y")];
                catalog_frame [(VInt 3, VStr "x")]]) 1
    = Ok [VInt 2]
  ∧ compare_csv_texts_chunked (inventory_frame [VStr "007"; VStr "abc"]) catalog_007_abc 1
    = Ok [VInt 1]
  ∧ compare_csv_texts_chunked (inventory_frame [VStr "007"; VStr "abc"]) catalog_007_abc 2
    = Ok [].
Proof.
  split; [|by vm_compute].
  intros df1 csv2 k1 k2 chunks1 chunks2 Hread1 Hread2 Hchunks1 Hchunks2 Hrecords.
  destruct (columns df1 !! "ARTIST_TITLE") as [inventory|] eqn:H1.
  - rewrite (chunked_spec _ _ _ _ _ H1 Hread1 Hchunks1).
    by rewrite (chunked_spec _ _ _ _ _ H1 Hread2 Hchunks2), Hrecords.
  - unfold compare_csv_texts_chunked. by rewrite existing_None.
Qed.

(** ** Positions in a filtered list *)





(** ** Inventories with the same keys *)

Lemma existing_same_keys (inventory inventory' : Series) :
  (∀ key, key ∈ normalize <$> inventory ↔ key ∈ normalize <$> inventory') →
  (list_to_set (clean inventory) : gset string) = list_to_set (clean inventory').
Proof.
  intros Hkeys. apply set_eq. intros key. by rewrite !elem_of_existing.
Qed.

Lemma isin_same_keys (s inventory inventory' : Series) :
  (∀ key, key ∈ normalize <$> inventory ↔ key ∈ normalize <$> inventory') →
  isin s (VStr <$> clean inventory) = isin s (VStr <$> clean inventory').
Proof.
  intros Hkeys. unfold isin. apply list_fmap_ext. intros _ v _.
  apply bool_decide_ext. rewrite !clean_normalize, !(list_elem_of_fmap VStr).
  split; intros (key & -> & Hkey); exists key; (split; [done|]); by apply Hkeys.
Qed.

(** C10.  The result depends on the inventory only through the set of its
    normalized keys: two inventories whose rows normalize to the same keys
    (in another order, or with rows repeated) give the same outcome with
    the same catalog, for each of the three strategies. *)
Theorem C10_only_the_key_set_matters df1 df1' df2 csv2 k inventory inventory' :
  columns df1 !! "ARTIST_TITLE" = Some inventory →
  columns df1' !! "ARTIST_TITLE" = Some inventory' →
  (∀ key, key ∈ normalize <$> inventory ↔ key ∈ normalize <$> inventory') →
  compare_csv_texts_efficient df1 df2 = compare_csv_texts_efficient df1' df2
  ∧ compare_csv_texts_vectorized df1 df2 = compare_csv_texts_vectorized df1' df2
  ∧ compare_csv_texts_chunked df1 csv2 k = compare_csv_texts_chunked df1' csv2 k.
Proof.
  intros H1 H1' Hkeys.
  pose proof (existing_same_keys _ _ Hkeys) as Hset.
  split; [|split].
  - unfold compare_csv_texts_efficient.
    by rewrite (existing_Some _ _ H1), (existing_Some _ _ H1'), Hset.
  - unfold compare_csv_texts_vectorized.
    rewrite (getitem_Some _ _ _ H1), (getitem_Some _ _ _ H1').
    run.
    destruct (getitem df2 "name") as [names|e]; cbn [mbind result_bind]; [|done].
    rewrite !getitem_setitem_eq. run.
    by rewrite (isin_same_keys _ _ _ Hkeys).
  - unfold compare_csv_texts_chunked.
    by rewrite (existing_Some _ _ H1), (existing_Some _ _ H1'), Hset.
Qed.

Lemma C10_witness :
  let inventory := [VStr "A - B"; VStr "c - d"; VNaN] in
  let inventory' := [VStr "C - D "; VStr "nan"; VStr " a - b"; VStr "A - B"; VStr "c - d"] in
  let df1 := inventory_frame inventory in
  let df1' := inventory_frame inventory' in
  let df2 := catalog_frame [(VInt 1, VStr "a - b"); (VInt 2, VStr "e - f"); (VInt 3, VNaN)] in
  let csv2 : chunk_reader :=
    λ _, Ok [catalog_frame [(VInt 1, VStr "a - b"); (VInt 2, VStr "e - f")];
             catalog_frame [(VInt 3, VNaN)]] in
  columns df1 !! "ARTIST_TITLE" = Some inventory
  ∧ columns df1' !! "ARTIST_TITLE" = Some inventory'
  ∧ (∀ key, key ∈ normalize <$> inventory ↔ key ∈ normalize <$> inventory')
  ∧ compare_csv_texts_efficient df1 df2 = compare_csv_texts_efficient df1' df2
  ∧ compare_csv_texts_vectorized df1 df2 = compare_csv_texts_vectorized df1' df2
  ∧ compare_csv_texts_chunked df1 csv2 2 = compare_csv_texts_chunked df1' csv2 2.
Proof.
  intros inventory inventory' df1 df1' df2 csv2.
  assert (∀ key, key ∈ normalize <$> inventory ↔ key ∈ normalize <$> inventory') as Hkeys.
  { intros key. vm_compute fmap. rewrite !elem_of_cons, !elem_of_nil. tauto. }
  split; [apply inventory_frame_keys|]. split; [apply inventory_frame_keys|].
  split; [exact Hkeys|].
  exact (C10_only_the_key_set_matters df1 df1' df2 csv2 2 inventory inventory'
           (inventory_frame_keys inventory) (inventory_frame_keys inventory') Hkeys).
Defined.

(** C4.  The Normalizer is a total function from cells to strings: every
    cell has a key, the chain of Series operations computes that key cell
    by cell, and the strategies do not fail on frames that carry the three
    columns, whatever the cells.  A missing value gets the placeholder
    "nan", the text of the missing value, so any two missing values have the
    same key. *)
Theorem C4_normalize_total :
  (∀ v, ∃ key : string, normalize v = key)
  ∧ (∀ s : Series, clean s = normalize <$> s)
  ∧ (∀ v, isna v = true → normalize v = "nan")
  ∧ (∀ v1 v2, isna v1 = true → isna v2 = true → normalize v1 = normalize v2)
  ∧ (∀ df1 df2, wf_frame df2 → required_columns df1 df2 →
       ¬ raises (compare_csv_texts_efficient df1 df2)
       ∧ ¬ raises (compare_csv_texts_vectorized df1 df2)).
Proof.
  split; [by eauto|]. split; [apply clean_normalize|].
  split; [by intros []|]. split; [by intros [] []|].
  intros df1 df2 Hwf (inventory & ids & names & H1 & Hid & Hname)%required_columns_lookup.
  rewrite (efficient_spec _ _ _ _ _ Hwf H1 Hid Hname).
  rewrite (vectorized_spec _ _ _ _ _ H1 Hid Hname). simpl. tauto.
Qed.

Lemma C4_witness :
  let df1 := inventory_frame [VStr "a"; VNaN] in
  let df2 := catalog_frame [(VInt 1, VNaN); (VInt 2, VStr "b"); (VInt 3, VNaN)] in
  normalize VNaN = "nan"
  ∧ wf_frame df2 ∧ required_columns df1 df2
  ∧ ¬ raises (compare_csv_texts_efficient df1 df2)
  ∧ ¬ raises (compare_csv_texts_vectorized df1 df2).
Proof.
  intros df1 df2.
  destruct C4_normalize_total as (_ & _ & Hnan & _ & Hok).
  assert (required_columns df1 df2) as Hreq.
  { apply required_columns_lookup. eexists _, _, _.
    split; [apply inventory_frame_keys|].
    split; [apply catalog_frame_id|apply catalog_frame_name]. }
  split; [by apply Hnan|]. split; [apply wf_catalog_frame|]. split; [exact Hreq|].
  exact (Hok df1 df2 (wf_catalog_frame _) Hreq).
Defined.

(** ** The row-wise strategy on frames that lack a column *)

Lemma iterrows_nil df : iterrows df = [] ↔ nrows df = 0.
Proof.
  unfold iterrows. destruct (nrows df) as [|n]; simpl; split; done.
Qed.

Lemma efficient_no_name df1 df2 inventory :
  columns df1 !! "ARTIST_TITLE" = Some inventory →
  columns df2 !! "name" = None →
  compare_csv_texts_efficient df1 df2
  = if decide (nrows df2 = 0) then Ok [] else Raise (KeyError "name").
Proof.
  intros H1 Hname. unfold compare_csv_texts_efficient.
  rewrite (existing_Some _ _ H1). run.
  rewrite efficient_loop_no_name.
  - pose proof (iterrows_nil df2) as Hnil.
    destruct (iterrows df2); case_decide as Hn; try done.
    + exfalso. apply Hn. by apply Hnil.
    + by apply Hnil in Hn.
  - unfold iterrows. apply Forall_fmap, Forall_forall. intros i _. simpl.
    by rewrite row_lookup, Hname.
Qed.

Lemma efficient_no_id df1 df2 inventory names :
  wf_frame df2 →
  columns df1 !! "ARTIST_TITLE" = Some inventory →
  columns df2 !! "name" = Some names →
  columns df2 !! "id" = None →
  compare_csv_texts_efficient df1 df2
  = if decide (Forall (λ name, normalize name ∈ normalize <$> inventory) names)
    then Ok [] else Raise (KeyError "id").
Proof.
  intros Hwf H1 Hname Hid. unfold compare_csv_texts_efficient.
  rewrite (existing_Some _ _ H1). run.
  apply efficient_loop_no_id.
  apply (iterrows_Forall2 (λ row name, row !! "id" = None ∧ row !! "name" = Some name)).
  - by apply (wf_frame_length _ "name").
  - intros i name Hi. by rewrite !row_lookup, Hid, Hname.
Qed.

(** C3.  The row-wise strategy does not fail when the required [id] column
    is absent and every catalog row is matched: on the frames below the
    identifier is never read and the empty list is returned, while the
    vectorized strategy and the chunked strategy, given the same frame as
    its only chunk, raise the KeyError of the absent column. *)
Theorem C3_row_wise_misses_absent_column :
  let df1 := inventory_frame [VStr "foo"] in
  let df2 := mkFrame 1 {[ "name" := [VStr "Foo "] ]} in
  wf_frame df2
  ∧ ¬ required_columns df1 df2
  ∧ compare_csv_texts_efficient df1 df2 = Ok []
  ∧ compare_csv_texts_vectorized df1 df2 = Raise (KeyError "id")
  ∧ compare_csv_texts_chunked df1 (λ _, Ok [df2]) 1 = Raise (KeyError "id").
Proof.
  intros df1 df2. split; [|split; [|split; [|split]]].
  - by apply map_Forall_singleton.
  - intros (_ & [ids Hid] & _). by vm_compute in Hid.
  - reflexivity.
  - reflexivity.
  - reflexivity.
Qed.

(** When the two whole-file strategies raise.  The vectorized strategy
    raises exactly when one of the three columns is absent.  The row-wise
    strategy raises only when one is absent, and exactly when [ARTIST_TITLE]
    is absent, or [name] is absent and the catalog has a row, or [id] is
    absent and some row is unmatched.  What is raised is the KeyError of an
    absent column. *)
Lemma failure_conditions df1 df2 :
  wf_frame df2 →
  (raises (compare_csv_texts_vectorized df1 df2) ↔ ¬ required_columns df1 df2)
  ∧ (raises (compare_csv_texts_efficient df1 df2) → ¬ required_columns df1 df2)
  ∧ (raises (compare_csv_texts_efficient df1 df2) ↔
       ¬ has_column df1 "ARTIST_TITLE"
       ∨ (¬ has_column df2 "name" ∧ 0 < nrows df2)
       ∨ (¬ has_column df2 "id"
          ∧ ∃ inventory names name,
              columns df1 !! "ARTIST_TITLE" = Some inventory
              ∧ columns df2 !! "name" = Some names
              ∧ name ∈ names
              ∧ normalize name ∉ normalize <$> inventory))
  ∧ (∀ e, compare_csv_texts_efficient df1 df2 = Raise e
          ∨ compare_csv_texts_vectorized df1 df2 = Raise e →
          (e = KeyError "ARTIST_TITLE" ∧ ¬ has_column df1 "ARTIST_TITLE")
          ∨ (e = KeyError "name" ∧ ¬ has_column df2 "name")
          ∨ (e = KeyError "id" ∧ ¬ has_column df2 "id")).
Proof.
  intros Hwf. unfold required_columns, has_column.
  destruct (columns df1 !! "ARTIST_TITLE") as [inventory|] eqn:H1.
  2:{ rewrite vectorized_raises_inventory, efficient_raises_inventory by done. simpl.
      assert (¬ is_Some (@None Series)) as Hno by (by intros [? ?]).
      repeat split; try tauto.
      intros e He. left.
      split; [by destruct He as [[= <-]|[= <-]]|done]. }
  destruct (columns df2 !! "name") as [names|] eqn:Hname.
  2:{ rewrite (vectorized_raises_name _ _ _ H1 Hname), (efficient_no_name _ _ _ H1 Hname).
      assert (¬ is_Some (@None Series)) as Hno by (by intros [? ?]).
      assert (is_Some (Some inventory)) as Hyes by eauto.
      case_decide; simpl; (split; [tauto|]); (split; [tauto|]).
      - split.
        + split; [done|]. intros [?|[[_ ?]|[_ (? & ? & ? & _ & ? & _)]]]; [tauto|lia|done].
        + intros e He. right; left.
          split; [by destruct He as [[= <-]|[= <-]]|done].
      - split.
        + split; [|done]. intros _. right; left. split; [done|lia].
        + intros e He. right; left.
          split; [by destruct He as [[= <-]|[= <-]]|done]. }
  destruct (columns df2 !! "id") as [ids|] eqn:Hid.
  2:{ rewrite (vectorized_raises_id _ _ _ _ H1 Hname Hid).
      rewrite (efficient_no_id _ _ _ _ Hwf H1 Hname Hid).
      assert (¬ is_Some (@None Series)) as Hno by (by intros [? ?]).
      case_decide as Hall; simpl; (split; [tauto|]); (split; [tauto|]).
      - split.
        + split; [done|].
          intros [[]|[[[] _]|[_ (inv' & names' & name & [= <-] & [= <-] & Hin & Hun)]]];
            eauto.
          rewrite Forall_forall in Hall. by apply Hun, Hall.
        + intros e He. right; right.
          split; [by destruct He as [[= <-]|[= <-]]|done].
      - split.
        + split; [|done]. intros _. right; right. split; [done|].
          apply not_Forall_Exists in Hall; [|apply _].
          apply Exists_exists in Hall as (name & Hin & Hun).
          by exists inventory, names, name.
        + intros e He. right; right.
          split; [by destruct He as [[= <-]|[= <-]]|done]. }
  rewrite (vectorized_spec _ _ _ _ _ H1 Hid Hname).
  rewrite (efficient_spec _ _ _ _ _ Hwf H1 Hid Hname). simpl.
  assert (is_Some (Some inventory) ∧ is_Some (Some ids) ∧ is_Some (Some names)) as Hyes
    by eauto.
  repeat split; try tauto.
  by intros e [?|?].
Qed.

Example failure_conditions_two_rows :
  let df1 := inventory_frame [VStr "foo"] in
  let df2 := mkFrame 2 {[ "name" := [VStr "Foo "; VStr "bar"] ]} in
  wf_frame df2
  ∧ (raises (compare_csv_texts_vectorized df1 df2) ↔ ¬ required_columns df1 df2)
  ∧ (raises (compare_csv_texts_efficient df1 df2) → ¬ required_columns df1 df2)
  ∧ compare_csv_texts_efficient df1 df2 = Raise (KeyError "id").
Proof.
  intros df1 df2.
  assert (wf_frame df2) as Hwf by (by apply map_Forall_singleton).
  split; [exact Hwf|].
  destruct (failure_conditions df1 df2 Hwf) as (Hv & He & _).
  split; [exact Hv|]. split; [exact He|reflexivity].
Qed.

(** ** exl_file.py: dropping duplicates *)

Lemma select_not_duplicated (seen col : Series) :
  NoDup (select (invert (duplicated_from seen col)) col)
  ∧ ∀ v, v ∈ select (invert (duplicated_from seen col)) col ↔ v ∈ col ∧ v ∉ seen.
Proof.
  revert seen. induction col as [|x col IH]; intros seen.
  - split; [constructor|]. intros v. simpl. rewrite elem_of_nil. tauto.
  - destruct (IH (x :: seen)) as [Hnd Hin].
    cbn [duplicated_from invert fmap list_fmap select].
    fold (invert (duplicated_from (x :: seen) col)).
    case_bool_decide as Hx; cbn [negb].
    + split; [done|]. intros v. rewrite Hin, !elem_of_cons. split.
      * intros [? ?]. split; [by right|tauto].
      * intros [[->|?] ?]; [done|]. split; [done|]. intros [->|?]; done.
    + split.
      * constructor; [|done]. rewrite Hin, elem_of_cons. tauto.
      * intros v. rewrite !elem_of_cons, Hin, elem_of_cons. split.
        -- intros [->|[? ?]]; [tauto|]. split; [by right|tauto].
        -- intros [[->|?] ?]; [by left|].
           destruct (decide (v = x)) as [->|Hne]; [by left|]. right. tauto.
Qed.

Lemma artist_title_to_csv_Saved df artist title :
  columns df !! "ARTIST" = Some artist →
  columns df !! "TITLE" = Some title →
  let col := artist_title_column artist title in
  let keep := invert (duplicated col) in
  artist_title_to_csv df
  = Saved (mkFrame (length (filter (λ b, b = true) keep))
                   {[ "ARTIST_TITLE" := select keep col ]}).
Proof.
  intros Ha Ht col keep. unfold artist_title_to_csv, select_columns.
  rewrite (getitem_Some _ _ _ Ha), (getitem_Some _ _ _ Ht).
  run.
  rewrite getitem_setitem_eq. run.
  rewrite getitem_setitem_ne by done. rewrite getitem_setitem_eq.
  run. unfold drop_duplicates.
  rewrite getitem_setitem_eq. run.
  fold col. fold keep.
  rewrite (getitem_Some _ _ (select keep col)).
  - cbn [mbind result_bind handle]. unfold setitem. simpl. done.
  - simpl. by rewrite lookup_fmap, lookup_insert_eq.
Qed.







(** ** Woocommerce.py: str.replace *)

Module ReplaceFacts.
Import PyStr.

Lemma append_cons c (a b : string) : String c a +:+ b = String c (a +:+ b).
Proof. reflexivity. Qed.

Lemma append_nil_l (b : string) : "" +:+ b = b.
Proof. reflexivity. Qed.

Lemma append_assoc (a b c : string) : (a +:+ b) +:+ c = a +:+ (b +:+ c).
Proof.
  induction a as [|x a IH]; [done|]. by rewrite !append_cons, IH.
Qed.

Lemma startswith_append p s : startswith p (p +:+ s) = true.
Proof.
  induction p as [|c p IH]; [done|].
  rewrite append_cons. cbn [startswith]. by rewrite decide_True.
Qed.

Lemma startswith_true p s : startswith p s = true → ∃ r, s = p +:+ r.
Proof.
  revert s. induction p as [|c p IH]; intros s; cbn [startswith].
  - intros _. by exists s.
  - destruct s as [|d s]; [done|]. case_decide as Hcd; [|done]. subst d.
    intros [r ->]%IH. by exists r.
Qed.

Lemma replace_from_skip old new p s :
  replace_from old new (String.length p) (p +:+ s) = replace_from old new 0 s.
Proof.
  induction p as [|c p IH]; [done|]. rewrite append_cons. exact IH.
Qed.

Lemma replace_match old new c s :
  replace (String c old) new (String c old +:+ s) = new +:+ replace (String c old) new s.
Proof.
  unfold replace. rewrite append_cons. cbn [replace_from].
  rewrite <- append_cons, startswith_append.
  replace (String.length (String c old) - 1) with (String.length old)
    by (cbn [String.length]; lia).
  by rewrite replace_from_skip.
Qed.

Lemma replace_nomatch old new c s :
  startswith old (String c s) = false →
  replace old new (String c s) = String c (replace old new s).
Proof. intros Hno. unfold replace. cbn [replace_from]. by rewrite Hno. Qed.

Lemma replace_absent old new s : contains old s = false → replace old new s = s.
Proof.
  induction s as [|c s IH]; [done|]. cbn [contains].
  intros [Hhead Htail]%orb_false_elim.
  rewrite replace_nomatch by done. by rewrite IH.
Qed.

(** No occurrence of "&amp;" starts inside a text and ends inside an
    occurrence that follows it: "&" is only its first character. *)
Lemma amp_no_overlap c a b :
  startswith "&amp;" (String c a) = false →
  startswith "&amp;" (String c a +:+ "&amp;" +:+ b) = false.
Proof.
  rewrite append_cons. cbn [startswith]. case_decide; [|done].
  destruct a as [|c2 a]; rewrite ?append_cons, ?append_nil_l; cbn [startswith];
    [by case_decide|].
  case_decide; [|done].
  destruct a as [|c3 a]; rewrite ?append_cons, ?append_nil_l; cbn [startswith];
    [by case_decide|].
  case_decide; [|done].
  destruct a as [|c4 a]; rewrite ?append_cons, ?append_nil_l; cbn [startswith];
    [by case_decide|].
  case_decide; [|done].
  destruct a as [|c5 a]; rewrite ?append_cons, ?append_nil_l; cbn [startswith];
    [by case_decide|].
  case_decide; [|done]. done.
Qed.

Lemma replace_amp_append_bounded n : ∀ a b,
  String.length a ≤ n →
  replace "&amp;" "&" (a +:+ "&amp;" +:+ b)
  = replace "&amp;" "&" a +:+ "&" +:+ replace "&amp;" "&" b.
Proof.
  induction n as [|n IH]; intros [|c a] b Hlen; cbn [String.length] in Hlen; try lia.
  - rewrite append_nil_l. apply (replace_match "amp;").
  - rewrite append_nil_l. apply (replace_match "amp;").
  - destruct (startswith "&amp;" (String c a)) eqn:Hhead.
    + apply startswith_true in Hhead as [r Hr]. rewrite Hr, append_assoc.
      rewrite !(replace_match "amp;"), IH; [by rewrite !append_cons, !append_nil_l|].
      assert (String.length (String c a) = 5 + String.length r) as Hl.
      { rewrite Hr. done. }
      cbn [String.length] in Hl. lia.
    + rewrite (replace_nomatch _ _ c a Hhead).
      rewrite (append_cons c a).
      rewrite replace_nomatch
        by (rewrite <- append_cons; by apply (amp_no_overlap c a b)).
      rewrite IH by lia. done.
Qed.

Lemma replace_amp_append a b :
  replace "&amp;" "&" (a +:+ "&amp;" +:+ b)
  = replace "&amp;" "&" a +:+ "&" +:+ replace "&amp;" "&" b.
Proof. by apply (replace_amp_append_bounded (String.length a)). Qed.

End ReplaceFacts.

(** ** Woocommerce.py: the rows written *)

Lemma filtered_data_Ok data rows :
  filtered_data data = Ok rows → Forall2 decoded data rows.
Proof.
  revert rows. induction data as [|item data IH]; intros rows; cbn [filtered_data].
  - intros [= <-]. constructor.
  - unfold item_get.
    destruct (item !! "id") as [id|] eqn:Hid; [|done].
    destruct (item !! "name") as [[| | |name]|] eqn:Hname; try done.
    cbn [mbind result_bind json_replace].
    destruct (filtered_data data) as [rest|] eqn:Hrest; [|done].
    run. intros [= <-].
    constructor; [|by apply IH]. split; [done|]. by exists name.
Qed.

Lemma filtered_data_total data :
  Forall (λ item : gmap string json,
            is_Some (item !! "id") ∧ ∃ name, item !! "name" = Some (JStr name)) data →
  ∃ rows, filtered_data data = Ok rows.
Proof.
  induction 1 as [|item data [[id Hid] [name Hname]] _ [rest IH]]; cbn [filtered_data].
  - by exists [].
  - unfold item_get. rewrite Hid, Hname. cbn [mbind result_bind json_replace].
    rewrite IH. run. eauto.
Qed.

Lemma woo_frame_wf rows : wf_frame (woo_frame rows).
Proof.
  unfold wf_frame, woo_frame; simpl.
  apply map_Forall_insert_2; [by rewrite !length_fmap|].
  apply map_Forall_singleton. by rewrite !length_fmap.
Qed.

(** C9.  Every row the catalog collaborator writes carries the identifier of
    its item and the item's name with "&amp;" replaced by "&": each
    occurrence becomes one "&", a name without the entity is unchanged, and
    the collaborator writes a row for every item when each has an
    identifier and a text name.  A comparison whose catalog frame holds the
    written names as text in its [name] column tests the decoded names,
    never the names of the items. *)
Theorem C9_ampersand_decoded :
  (∀ data rows, save_id_name_to_csv data = Saved rows → Forall2 decoded data rows)
  ∧ (∀ data,
       Forall (λ item : gmap string json,
                 is_Some (item !! "id") ∧ ∃ name, item !! "name" = Some (JStr name)) data →
       ∃ rows, save_id_name_to_csv data = Saved rows)
  ∧ (∀ a b, PyStr.replace "&amp;" "&" (a +:+ "&amp;" +:+ b)
            = PyStr.replace "&amp;" "&" a +:+ "&" +:+ PyStr.replace "&amp;" "&" b)
  ∧ (∀ name, PyStr.contains "&amp;" name = false → PyStr.replace "&amp;" "&" name = name)
  ∧ (∀ data rows df1 df2 inventory ids,
       save_id_name_to_csv data = Saved rows →
       columns df1 !! "ARTIST_TITLE" = Some inventory →
       columns df2 !! "id" = Some ids →
       columns df2 !! "name" = Some (VStr <$> rows.*2) →
       compare_csv_texts_vectorized df1 df2
       = Ok (expected_result inventory ids (VStr <$> rows.*2))).
Proof.
  split; [|split; [|split; [|split]]].
  - intros data rows Hsave. apply filtered_data_Ok.
    unfold save_id_name_to_csv in Hsave.
    destruct (filtered_data data); [|done]. by injection Hsave as ->.
  - intros data Hdata. destruct (filtered_data_total data Hdata) as [rows Hrows].
    exists rows. unfold save_id_name_to_csv. by rewrite Hrows.
  - apply ReplaceFacts.replace_amp_append.
  - apply ReplaceFacts.replace_absent.
  - intros data rows df1 df2 inventory ids _ H1 Hid Hname.
    by apply vectorized_spec.
Qed.

Lemma C9_witness :
  let data : list (gmap string json) :=
    [ <["id" := JInt 11]> {[ "name" := JStr "Simon &amp; Garfunkel - Bookends" ]};
      <["id" := JInt 12]> (<["name" := JStr "AC/DC - Back in Black"]>
                           {[ "price" := JStr "9.99" ]}) ] in
  let df1 := inventory_frame [VStr "Simon & Garfunkel - Bookends"] in
  let df2 := catalog_frame [(VInt 11, VStr "Simon & Garfunkel - Bookends");
                            (VInt 12, VStr "AC/DC - Back in Black")] in
  Forall (λ item : gmap string json,
            is_Some (item !! "id") ∧ ∃ name, item !! "name" = Some (JStr name)) data
  ∧ columns df1 !! "ARTIST_TITLE" = Some [VStr "Simon & Garfunkel - Bookends"]
  ∧ ∃ rows,
      save_id_name_to_csv data = Saved rows
      ∧ rows = [(JInt 11, "Simon & Garfunkel - Bookends"); (JInt 12, "AC/DC - Back in Black")]
      ∧ columns df2 !! "name" = Some (VStr <$> rows.*2)
      ∧ compare_csv_texts_vectorized df1 df2 = Ok [VInt 12].
Proof.
  intros data df1 df2.
  destruct C9_ampersand_decoded as (_ & Htotal & _ & _ & Hcmp).
  assert (Forall (λ item : gmap string json,
            is_Some (item !! "id") ∧ ∃ name, item !! "name" = Some (JStr name)) data)
    as Hdata.
  { repeat constructor; eauto. }
  split; [exact Hdata|]. split; [apply inventory_frame_keys|].
  destruct (Htotal data Hdata) as [rows Hrows].
  exists rows. split; [exact Hrows|].
  assert (rows = [(JInt 11, "Simon & Garfunkel - Bookends");
                  (JInt 12, "AC/DC - Back in Black")]) as Hr.
  { vm_compute in Hrows. by injection Hrows as <-. }
  split; [exact Hr|].
  assert (columns df2 !! "name" = Some (VStr <$> rows.*2)) as Hname.
  { rewrite Hr. reflexivity. }
  split; [exact Hname|].
  rewrite (Hcmp data rows df1 df2 _ [VInt 11; VInt 12] Hrows (inventory_frame_keys _)
             eq_refl Hname), Hr.
  reflexivity.
Defined.

(** * Further properties of the code *)

(** ** What the Normalizer removes and what it keeps *)

Module StripFacts.
Import PyStr ReplaceFacts.

Lemma all_space_append l r : all_space (l +:+ r) = all_space l && all_space r.
Proof.
  induction l as [|c l IH]; [done|].
  rewrite append_cons. cbn [all_space]. by rewrite IH, andb_assoc.
Qed.

Lemma lstrip_pad l s : all_space l = true → lstrip (l +:+ s) = lstrip s.
Proof.
  induction l as [|c l IH]; [done|]. cbn [all_space].
  intros [Hc Hl]%andb_true_iff. rewrite append_cons. cbn [lstrip]. rewrite Hc. auto.
Qed.

Lemma rstrip_all_space r : all_space r = true → rstrip r = "".
Proof.
  induction r as [|c r IH]; [done|]. cbn [all_space rstrip].
  intros [Hc Hr]%andb_true_iff. by rewrite (IH Hr), Hc.
Qed.

Lemma rstrip_pad s r : all_space r = true → rstrip (s +:+ r) = rstrip s.
Proof.
  intros Hr. induction s as [|c s IH].
  - rewrite append_nil_l. by apply rstrip_all_space.
  - rewrite append_cons. cbn [rstrip]. by rewrite IH.
Qed.

Lemma strip_pad l s r :
  all_space l = true → all_space r = true → strip (l +:+ s +:+ r) = strip s.
Proof.
  intros Hl Hr. unfold strip.
  rewrite <- append_assoc, (rstrip_pad _ _ Hr).
  rewrite <- !PyStrFacts.rstrip_lstrip. by rewrite (lstrip_pad _ _ Hl).
Qed.

Lemma lstrip_split s : ∃ l, s = l +:+ lstrip s ∧ all_space l = true.
Proof.
  induction s as [|c s (l & Hs & Hl)]; [by exists ""|].
  cbn [lstrip]. destruct (isspace c) eqn:Hc.
  - exists (String c l). rewrite append_cons, <- Hs. split; [done|].
    cbn [all_space]. by rewrite Hc, Hl.
  - by exists "".
Qed.

Lemma rstrip_split s : ∃ r, s = rstrip s +:+ r ∧ all_space r = true.
Proof.
  induction s as [|c s (r & Hs & Hr)]; [by exists ""|].
  cbn [rstrip]. destruct (rstrip s) as [|d t] eqn:Ht.
  - rewrite append_nil_l in Hs. subst r. destruct (isspace c) eqn:Hc.
    + exists (String c s). split; [done|]. cbn [all_space]. by rewrite Hc, Hr.
    + exists s. by rewrite append_cons, append_nil_l.
  - exists r. by rewrite append_cons, <- Hs.
Qed.

Lemma lstrip_head s c t : lstrip s = String c t → isspace c = false.
Proof.
  induction s as [|d s IH]; [done|]. cbn [lstrip].
  destruct (isspace d) eqn:Hd; [done|]. by intros [= <- _].
Qed.

Lemma rstrip_last s t c : rstrip s = t +:+ String c "" → isspace c = false.
Proof.
  revert t. induction s as [|d s IH]; intros t.
  - destruct t; done.
  - cbn [rstrip]. destruct (rstrip s) as [|e u] eqn:Hu.
    + destruct (isspace d) eqn:Hd.
      * destruct t; done.
      * destruct t as [|x t]; [by intros [= <-]|].
        rewrite append_cons. intros [= _ Ht]. destruct t; done.
    + destruct t as [|x t]; [done|].
      rewrite append_cons. intros [= _ Ht]. by apply (IH t).
Qed.

End StripFacts.

(** X1.  Texts that differ only by white space around them and by the case
    of their letters have the same key: padding a text with white space on
    either side and changing it to any text with the same lower-case form
    leaves its normalized key unchanged. *)
Theorem normalize_ignores_padding_and_case (l s s' r : string) :
  all_space l = true → all_space r = true →
  PyStr.lower s = PyStr.lower s' →
  normalize (VStr (l +:+ s +:+ r)) = normalize (VStr s').
Proof.
  intros Hl Hr Hcase. unfold normalize. cbn [py_str].
  rewrite (StripFacts.strip_pad _ _ _ Hl Hr).
  by rewrite <- !PyStrFacts.strip_lower, Hcase.
Qed.

Lemma normalize_ignores_padding_and_case_witness :
  all_space "  " = true ∧ all_space " 	" = true
  ∧ PyStr.lower "Beatles - ABBEY Road" = PyStr.lower "beatles - Abbey road"
  ∧ normalize (VStr ("  " +:+ "Beatles - ABBEY Road" +:+ " 	"))
    = normalize (VStr "beatles - Abbey road").
Proof.
  split; [reflexivity|]. split; [reflexivity|]. split; [reflexivity|].
  by apply normalize_ignores_padding_and_case.
Defined.

(** X2.  The Normalizer trims the two ends and nothing else: the text of a
    cell is its stripped form between two runs of white space, and the
    stripped form neither starts nor ends with white space.  White space
    inside a text is kept. *)
Theorem strip_trims_the_ends_only (v : value) :
  ∃ l r,
    py_str v = l +:+ PyStr.strip (py_str v) +:+ r
    ∧ all_space l = true ∧ all_space r = true
    ∧ (∀ c t, PyStr.strip (py_str v) = String c t → PyStr.isspace c = false)
    ∧ (∀ t c, PyStr.strip (py_str v) = t +:+ String c "" → PyStr.isspace c = false).
Proof.
  set (s := py_str v).
  destruct (StripFacts.rstrip_split s) as (r & Hs & Hr).
  destruct (StripFacts.lstrip_split (PyStr.rstrip s)) as (l & Hs' & Hl).
  exists l, r. split; [|split; [done|split; [done|split]]].
  - unfold PyStr.strip. rewrite <- ReplaceFacts.append_assoc, <- Hs'. exact Hs.
  - intros c t. unfold PyStr.strip. apply StripFacts.lstrip_head.
  - intros t c. unfold PyStr.strip. rewrite <- PyStrFacts.rstrip_lstrip.
    apply StripFacts.rstrip_last.
Qed.

(** ** compare.py: how the result depends on its two inputs *)

















(** ** exl_file.py: the file of combined keys *)

Lemma select_sublist mask (col : Series) : select mask col `sublist_of` col.
Proof.
  revert col. induction mask as [|b mask IH]; intros [|v col]; simpl;
    try apply sublist_nil_l.
  destruct b; [by apply sublist_skip|by apply sublist_cons].
Qed.

Lemma select_length mask (col : Series) :
  length mask = length col →
  length (select mask col) = length (filter (λ b, b = true) mask).
Proof.
  revert col. induction mask as [|b mask IH]; intros [|v col]; try done.
  cbn [length select]. intros [= Hlen]. destruct b.
  - rewrite filter_cons_True by done. cbn [length]. by rewrite IH.
  - rewrite filter_cons_False by done. by apply IH.
Qed.

Lemma duplicated_from_length seen (col : Series) :
  length (duplicated_from seen col) = length col.
Proof. revert seen. induction col as [|v col IH]; intros seen; simpl; [done|]. by rewrite IH. Qed.

Lemma select_not_duplicated_app seen (l1 l2 : Series) :
  select (invert (duplicated_from seen (l1 ++ l2))) (l1 ++ l2)
  = select (invert (duplicated_from seen l1)) l1
    ++ select (invert (duplicated_from (reverse l1 ++ seen) l2)) l2.
Proof.
  revert seen. induction l1 as [|x l1 IH]; intros seen; [done|].
  cbn [app duplicated_from invert fmap list_fmap select].
  fold (invert (duplicated_from (x :: seen) (l1 ++ l2))).
  fold (invert (duplicated_from (x :: seen) l1)).
  rewrite IH, reverse_cons, <- app_assoc. simpl.
  by destruct (negb (bool_decide (x ∈ seen))).
Qed.

Lemma select_not_duplicated_id seen (col : Series) :
  NoDup col → (∀ v, v ∈ col → v ∉ seen) →
  select (invert (duplicated_from seen col)) col = col.
Proof.
  intros Hnd. revert seen. induction Hnd as [|x col Hx Hnd IH]; intros seen Hseen; [done|].
  cbn [duplicated_from invert fmap list_fmap select].
  fold (invert (duplicated_from (x :: seen) col)).
  rewrite bool_decide_eq_false_2 by (apply Hseen; by left). cbn [negb].
  rewrite IH; [done|]. intros v Hv [->|Hin]%elem_of_cons; [done|].
  apply (Hseen v); [by right|done].
Qed.

Lemma artist_title_to_csv_kept df artist title :
  columns df !! "ARTIST" = Some artist →
  columns df !! "TITLE" = Some title →
  ∃ out, artist_title_to_csv df = Saved out
         ∧ columns out = {[ "ARTIST_TITLE" := kept (artist_title_column artist title) ]}
         ∧ nrows out = length (kept (artist_title_column artist title)).
Proof.
  intros Ha Ht. eexists. split; [by apply artist_title_to_csv_Saved|].
  split; [done|]. simpl. unfold kept. rewrite select_length; [done|].
  unfold invert, duplicated. by rewrite length_fmap, duplicated_from_length.
Qed.

Lemma artist_title_to_csv_Status500 df :
  ¬ (has_column df "ARTIST" ∧ has_column df "TITLE") →
  ∃ e, artist_title_to_csv df = Status500 e.
Proof.
  unfold has_column, artist_title_to_csv, select_columns, getitem. intros Hno.
  destruct (columns df !! "ARTIST") as [artist|]; [|by eexists].
  destruct (columns df !! "TITLE") as [title|]; [|by eexists].
  destruct Hno. eauto.
Qed.

(** X9.  The inventory collaborator writes a file exactly when the sheet
    has both an ARTIST and a TITLE column, and answers with its status-500
    dictionary otherwise.  The frame it writes is well formed, has the one
    column ARTIST_TITLE whatever other columns the sheet has, and holds
    text in every cell: a missing artist or title appears as "nan" in the
    key and drops no row. *)
Theorem inventory_file_written_iff_columns df :
  ((has_column df "ARTIST" ∧ has_column df "TITLE")
     ↔ ∃ out, artist_title_to_csv df = Saved out)
  ∧ (¬ (has_column df "ARTIST" ∧ has_column df "TITLE")
     ↔ ∃ e, artist_title_to_csv df = Status500 e)
  ∧ ∀ out, artist_title_to_csv df = Saved out →
      wf_frame out
      ∧ dom (columns out) = {[ "ARTIST_TITLE" ]}
      ∧ ∀ c keys, columns out !! c = Some keys → Forall (λ v, ∃ s, v = VStr s) keys.
Proof.
  assert ((has_column df "ARTIST" ∧ has_column df "TITLE")
          → ∃ out, artist_title_to_csv df = Saved out
                   ∧ wf_frame out ∧ dom (columns out) = {[ "ARTIST_TITLE" ]}
                   ∧ ∀ c keys, columns out !! c = Some keys →
                       Forall (λ v, ∃ s, v = VStr s) keys) as Hyes.
  { intros [[artist Ha] [title Ht]].
    destruct (artist_title_to_csv_kept df _ _ Ha Ht) as (out & Hout & Hcols & Hn).
    exists out. split; [done|]. split; [|split].
    - intros c col. rewrite Hcols. intros [<- <-]%lookup_singleton_Some. by rewrite Hn.
    - rewrite Hcols. apply dom_singleton_L.
    - intros c keys. rewrite Hcols. intros [_ <-]%lookup_singleton_Some.
      apply Forall_forall. intros v Hv.
      pose proof (elem_of_sublist _ _ _ Hv (select_sublist _ _)) as Hin.
      unfold artist_title_column in Hin.
      apply list_elem_of_fmap in Hin as (s & -> & _). by exists s. }
  split; [|split].
  - split; [intros (out & ? & _)%Hyes; eauto|].
    intros [out Hout]. destruct (decide (has_column df "ARTIST" ∧ has_column df "TITLE"))
      as [|Hno]; [done|].
    destruct (artist_title_to_csv_Status500 df Hno) as [e He]. congruence.
  - split; [apply artist_title_to_csv_Status500|].
    intros [e He] (out & Hout & _)%Hyes. congruence.
  - intros out Hout.
    destruct (decide (has_column df "ARTIST" ∧ has_column df "TITLE")) as [Hcols|Hno].
    + destruct (Hyes Hcols) as (out' & Hout' & Hrest).
      assert (out' = out) as -> by congruence. exact Hrest.
    + destruct (artist_title_to_csv_Status500 df Hno) as [e He]. congruence.
Qed.

Lemma duplicated_from_lookup seen (col : Series) i v :
  col !! i = Some v →
  duplicated_from seen col !! i = Some (bool_decide (v ∈ seen ∨ v ∈ take i col)).
Proof.
  revert seen i. induction col as [|x col IH]; intros seen [|i]; try done.
  - intros [= ->]. cbn [duplicated_from take]. simpl. f_equal.
    apply bool_decide_ext. rewrite elem_of_nil. tauto.
  - intros Hv. cbn [duplicated_from take]. simpl.
    rewrite (IH (x :: seen) i Hv). f_equal.
    apply bool_decide_ext. rewrite !elem_of_cons. tauto.
Qed.

Lemma kept_take_prefix (col : Series) i : kept (take i col) `prefix_of` kept col.
Proof.
  assert (kept col
          = kept (take i col)
            ++ select (invert (duplicated_from (reverse (take i col) ++ []) (drop i col)))
                      (drop i col)) as ->.
  { unfold kept, duplicated. rewrite <- select_not_duplicated_app.
    by rewrite take_drop. }
  by apply prefix_app_r.
Qed.

(** X10.  Of equal combined keys the first row is the one kept, and the
    file keeps the order of the sheet: the keys written are a subsequence
    of the combined keys of the sheet, a row is marked as a duplicate
    exactly when its combined key is that of a row before it, and the keys
    kept among the first rows of the sheet are the first of the keys
    written. *)
Theorem first_occurrences_kept_in_order df a t :
  columns df !! "ARTIST" = Some a → columns df !! "TITLE" = Some t →
  ∃ out keys,
    artist_title_to_csv df = Saved out
    ∧ columns out !! "ARTIST_TITLE" = Some keys
    ∧ keys `sublist_of` artist_title_column a t
    ∧ (∀ i v, artist_title_column a t !! i = Some v →
         duplicated (artist_title_column a t) !! i
         = Some (bool_decide (v ∈ take i (artist_title_column a t))))
    ∧ (∀ i, kept (take i (artist_title_column a t)) `prefix_of` keys).
Proof.
  intros Ha Ht.
  destruct (artist_title_to_csv_kept df _ _ Ha Ht) as (out & Hout & Hcols & _).
  exists out, (kept (artist_title_column a t)).
  split; [done|]. split; [by rewrite Hcols, lookup_singleton_eq|].
  split; [apply select_sublist|]. split.
  - intros i v Hv. unfold duplicated. rewrite (duplicated_from_lookup _ _ _ _ Hv).
    f_equal. apply bool_decide_ext. rewrite elem_of_nil. tauto.
  - intros i. apply kept_take_prefix.
Qed.

Lemma first_occurrences_kept_in_order_witness :
  let a := [VStr "Queen"; VStr "Abba"; VStr "Queen"; VStr "Abba"; VStr "Kiss"] in
  let t := [VStr "Jazz"; VStr "Arrival"; VStr "Jazz"; VStr "Arrival"; VStr "Alive"] in
  let df := mkFrame 5 (<["ARTIST" := a]> {[ "TITLE" := t ]}) in
  columns df !! "ARTIST" = Some a ∧ columns df !! "TITLE" = Some t
  ∧ ∃ out,
      artist_title_to_csv df = Saved out
      ∧ columns out !! "ARTIST_TITLE"
        = Some [VStr "Queen - Jazz"; VStr "Abba - Arrival"; VStr "Kiss - Alive"]
      ∧ duplicated (artist_title_column a t) !! 2 = Some true
      ∧ [VStr "Queen - Jazz"; VStr "Abba - Arrival"]
        `prefix_of` [VStr "Queen - Jazz"; VStr "Abba - Arrival"; VStr "Kiss - Alive"].
Proof.
  intros a t df.
  assert (columns df !! "ARTIST" = Some a) as Ha by apply lookup_insert_eq.
  assert (columns df !! "TITLE" = Some t) as Ht.
  { unfold df; simpl. rewrite lookup_insert_ne by done. apply lookup_singleton_eq. }
  split; [exact Ha|]. split; [exact Ht|].
  destruct (first_occurrences_kept_in_order df a t Ha Ht)
    as (out & keys & Hout & Hk & _ & Hdup & Hpre).
  assert (keys = [VStr "Queen - Jazz"; VStr "Abba - Arrival"; VStr "Kiss - Alive"])
    as Hkeys.
  { rewrite (artist_title_to_csv_Saved df _ _ Ha Ht) in Hout. injection Hout as <-.
    cbn [columns] in Hk. rewrite lookup_singleton_eq in Hk. by injection Hk as <-. }
  exists out. split; [exact Hout|]. split; [by rewrite Hk, Hkeys|]. split.
  - exact (Hdup 2 (VStr "Queen - Jazz") eq_refl).
  - rewrite <- Hkeys. exact (Hpre 3).
Defined.

(** X11.  A sheet whose combined keys are all different is written row for
    row; and dropping duplicates a second time changes nothing. *)
Theorem distinct_keys_written_unchanged df a t :
  columns df !! "ARTIST" = Some a → columns df !! "TITLE" = Some t →
  ∃ out keys,
    artist_title_to_csv df = Saved out
    ∧ columns out !! "ARTIST_TITLE" = Some keys
    ∧ kept keys = keys
    ∧ (NoDup (artist_title_column a t) → keys = artist_title_column a t).
Proof.
  intros Ha Ht.
  destruct (artist_title_to_csv_kept df _ _ Ha Ht) as (out & Hout & Hcols & _).
  exists out, (kept (artist_title_column a t)).
  split; [done|]. split; [by rewrite Hcols, lookup_singleton_eq|]. split.
  - unfold kept at 1, duplicated. apply select_not_duplicated_id.
    + apply (select_not_duplicated [] (artist_title_column a t)).
    + intros v _. apply not_elem_of_nil.
  - intros Hnd. unfold kept, duplicated. apply select_not_duplicated_id; [done|].
    intros v _. apply not_elem_of_nil.
Qed.

Lemma distinct_keys_written_unchanged_witness :
  let a := [VStr "Queen"; VStr "Queen"; VNaN] in
  let t := [VStr "Jazz"; VStr "jazz"; VInt 5] in
  let df := mkFrame 3 (<["ARTIST" := a]> {[ "TITLE" := t ]}) in
  columns df !! "ARTIST" = Some a ∧ columns df !! "TITLE" = Some t
  ∧ NoDup (artist_title_column a t)
  ∧ ∃ out,
      artist_title_to_csv df = Saved out
      ∧ columns out !! "ARTIST_TITLE"
        = Some [VStr "Queen - Jazz"; VStr "Queen - jazz"; VStr "nan - 5"].
Proof.
  intros a t df.
  assert (columns df !! "ARTIST" = Some a) as Ha by apply lookup_insert_eq.
  assert (columns df !! "TITLE" = Some t) as Ht.
  { unfold df; simpl. rewrite lookup_insert_ne by done. apply lookup_singleton_eq. }
  assert (NoDup (artist_title_column a t)) as Hnd.
  { apply (bool_decide_unpack _). vm_compute. exact I. }
  split; [exact Ha|]. split; [exact Ht|]. split; [exact Hnd|].
  destruct (distinct_keys_written_unchanged df a t Ha Ht) as (out & keys & Hout & Hk & _ & Hall).
  exists out. split; [exact Hout|]. by rewrite Hk, (Hall Hnd).
Defined.

(** ** Woocommerce.py: malformed items and the decoding of names *)

Lemma filtered_data_app_bad good bad rest :
  Forall item_ok good → ¬ item_ok bad →
  filtered_data (good ++ bad :: rest) = Raise (item_error bad).
Proof.
  intros Hgood Hbad. induction Hgood as [|item good [[id Hid] [name Hname]] _ IH].
  - cbn [app filtered_data]. unfold item_get, item_error, item_ok in *.
    destruct (bad !! "id") as [id|]; [|done].
    destruct (bad !! "name") as [[| | |name]|]; try done.
    destruct Hbad. eauto.
  - cbn [app filtered_data]. unfold item_get. rewrite Hid, Hname.
    cbn [mbind result_bind json_replace]. by rewrite IH.
Qed.

Lemma save_Saved_item_ok data rows :
  save_id_name_to_csv data = Saved rows → Forall item_ok data.
Proof.
  unfold save_id_name_to_csv. destruct (filtered_data data) as [rows'|] eqn:Hrows; [|done].
  intros _. apply filtered_data_Ok in Hrows.
  induction Hrows as [|item row data rows' (Hid & name & Hname & _) _ IH]; constructor; [|done].
  split; eauto.
Qed.

(** X12.  The catalog collaborator writes all rows or none.  It writes a
    file exactly when every item has an [id] and a text [name]; otherwise
    the first item that lacks one decides the error of the status-500
    dictionary: KeyError 'id', KeyError 'name', or the AttributeError of
    calling [replace] on a name that is no text, whatever follows it. *)
Theorem catalog_file_all_or_nothing data :
  (Forall item_ok data ↔ ∃ rows, save_id_name_to_csv data = Saved rows)
  ∧ ∀ good bad rest,
      data = good ++ bad :: rest → Forall item_ok good → ¬ item_ok bad →
      save_id_name_to_csv data = Status500 (item_error bad).
Proof.
  split.
  - split.
    + intros Hok. destruct (filtered_data_total data Hok) as [rows Hrows].
      exists rows. unfold save_id_name_to_csv. by rewrite Hrows.
    + intros [rows Hrows]. by eapply save_Saved_item_ok.
  - intros good bad rest -> Hgood Hbad. unfold save_id_name_to_csv.
    by rewrite filtered_data_app_bad.
Qed.

Lemma catalog_file_all_or_nothing_witness :
  let good : gmap string json := <["id" := JInt 1]> {[ "name" := JStr "a" ]} in
  let bad : gmap string json := <["id" := JInt 2]> {[ "name" := JNull ]} in
  let worse : gmap string json := {[ "name" := JStr "c" ]} in
  Forall item_ok [good] ∧ ¬ item_ok bad
  ∧ save_id_name_to_csv ([good] ++ bad :: [worse; good])
    = Status500 (AttributeError "replace").
Proof.
  intros good bad worse.
  assert (Forall item_ok [good]) as Hgood.
  { apply (bool_decide_unpack _). vm_compute. exact I. }
  assert (¬ item_ok bad) as Hbad.
  { apply (bool_decide_unpack _). vm_compute. exact I. }
  split; [exact Hgood|]. split; [exact Hbad|].
  exact (proj2 (catalog_file_all_or_nothing ([good] ++ bad :: [worse; good]))
           [good] bad [worse; good] eq_refl Hgood Hbad).
Defined.

(** X13.  Only the [id] and the [name] of an item reach the file: two
    response bodies whose items agree on these two fields, one by one,
    have the same outcome, whatever other fields the items carry. *)
Theorem only_id_and_name_are_read (data data' : list (gmap string json)) :
  Forall2 (λ item item', item !! "id" = item' !! "id" ∧ item !! "name" = item' !! "name")
          data data' →
  save_id_name_to_csv data = save_id_name_to_csv data'.
Proof.
  intros Hsame. unfold save_id_name_to_csv. f_equal.
  induction Hsame as [|item item' data data' [Hid Hname] _ IH]; [done|].
  cbn [filtered_data]. unfold item_get. by rewrite Hid, Hname, IH.
Qed.

Lemma only_id_and_name_are_read_witness :
  let item : gmap string json :=
    <["id" := JInt 7]> (<["name" := JStr "R&amp;B"]> {[ "price" := JStr "9.99" ]}) in
  let item' : gmap string json :=
    <["sku" := JNull]> (<["name" := JStr "R&amp;B"]> {[ "id" := JInt 7 ]}) in
  Forall2 (λ i i' : gmap string json, i !! "id" = i' !! "id" ∧ i !! "name" = i' !! "name")
          [item] [item']
  ∧ save_id_name_to_csv [item] = save_id_name_to_csv [item']
  ∧ save_id_name_to_csv [item] = Saved [(JInt 7, "R&B")].
Proof.
  intros item item'.
  assert (Forall2 (λ i i' : gmap string json,
                     i !! "id" = i' !! "id" ∧ i !! "name" = i' !! "name")
                  [item] [item']) as Hsame.
  { repeat constructor. }
  split; [exact Hsame|]. split; [|reflexivity].
  exact (only_id_and_name_are_read [item] [item'] Hsame).
Defined.

Module DecodeFacts.
Import PyStr ReplaceFacts.

Lemma length_append (a b : string) :
  String.length (a +:+ b) = String.length a + String.length b.
Proof.
  induction a as [|c a IH]; [done|]. rewrite append_cons. cbn [String.length]. by rewrite IH.
Qed.

Lemma replace_amp_length_bounded n : ∀ s,
  String.length s ≤ n →
  String.length (replace "&amp;" "&" s) ≤ String.length s
  ∧ (contains "&amp;" s = true → String.length (replace "&amp;" "&" s) < String.length s).
Proof.
  induction n as [|n IH]; intros [|c s] Hlen; cbn [String.length] in Hlen; try lia.
  - by split.
  - by split.
  - destruct (startswith "&amp;" (String c s)) eqn:Hhead.
    + apply startswith_true in Hhead as [r Hr]. rewrite Hr.
      rewrite (replace_match "amp;"), !length_append.
      assert (String.length (String c s) = 5 + String.length r) as Hl
        by (by rewrite Hr, length_append).
      cbn [String.length] in Hl. destruct (IH r ltac:(lia)) as [Hle _].
      cbn [String.length]. lia.
    + rewrite (replace_nomatch _ _ _ _ Hhead). cbn [String.length contains].
      rewrite Hhead. destruct (IH s ltac:(lia)) as [Hle Hlt]. split; [lia|].
      intros Hc. simpl in Hc. apply Hlt in Hc. lia.
Qed.

Lemma replace_amp_amp b : replace "&amp;" "&" ("amp;" +:+ b) = "amp;" +:+ replace "&amp;" "&" b.
Proof.
  rewrite !append_cons, append_nil_l.
  do 4 (rewrite replace_nomatch by (cbn [startswith]; by rewrite decide_False)).
  done.
Qed.

End DecodeFacts.

(** X14.  Decoding never lengthens a name: the decoded name is at most as
    long as the name, and exactly as long if and only if the name holds no
    "&amp;", in which case it is the name itself. *)
Theorem decoding_only_shortens (name : string) :
  String.length (PyStr.replace "&amp;" "&" name) ≤ String.length name
  ∧ (String.length (PyStr.replace "&amp;" "&" name) = String.length name
     ↔ PyStr.contains "&amp;" name = false)
  ∧ (PyStr.replace "&amp;" "&" name = name ↔ PyStr.contains "&amp;" name = false).
Proof.
  destruct (DecodeFacts.replace_amp_length_bounded (String.length name) name ltac:(lia))
    as [Hle Hlt].
  split; [exact Hle|]. split; split.
  - intros Heq. destruct (PyStr.contains "&amp;" name); [|done].
    specialize (Hlt eq_refl). lia.
  - intros Hno. by rewrite ReplaceFacts.replace_absent.
  - intros Heq. destruct (PyStr.contains "&amp;" name); [|done].
    specialize (Hlt eq_refl). rewrite Heq in Hlt. lia.
  - apply ReplaceFacts.replace_absent.
Qed.

(** X15.  Names are decoded one level only: a doubly encoded ampersand,
    "&amp;amp;", comes out as "&amp;" and not as "&", wherever it stands in
    the name. *)
Theorem decoding_is_one_level (a b : string) :
  PyStr.replace "&amp;" "&" (a +:+ "&amp;amp;" +:+ b)
  = PyStr.replace "&amp;" "&" a +:+ "&amp;" +:+ PyStr.replace "&amp;" "&" b.
Proof.
  change ("&amp;amp;" +:+ b) with ("&amp;" +:+ "amp;" +:+ b).
  rewrite ReplaceFacts.replace_amp_append, DecodeFacts.replace_amp_amp. done.
Qed.

(** ** app.py: the three steps of the endpoint *)

Lemma woo_frame_id rows : columns (woo_frame rows) !! "id" = Some (id_cell <$> rows.*1).
Proof. apply lookup_insert_eq. Qed.

Lemma woo_frame_name rows : columns (woo_frame rows) !! "name" = Some (VStr <$> rows.*2).
Proof.
  unfold woo_frame; simpl. rewrite lookup_insert_ne by done. apply lookup_singleton_eq.
Qed.

Lemma expected_result_same_keys inventory inventory' ids names :
  (∀ key, key ∈ normalize <$> inventory ↔ key ∈ normalize <$> inventory') →
  expected_result inventory ids names = expected_result inventory' ids names.
Proof.
  intros Hkeys. unfold expected_result. f_equal. apply list_filter_iff.
  intros r. unfold unmatched. by rewrite Hkeys.
Qed.

Lemma kept_keys (col : Series) key :
  key ∈ normalize <$> kept col ↔ key ∈ normalize <$> col.
Proof.
  rewrite !list_elem_of_fmap. unfold kept, duplicated.
  split; intros (v & -> & Hv); exists v; (split; [done|]);
    apply (select_not_duplicated [] col) in Hv || apply (select_not_duplicated [] col);
    [tauto|]. split; [done|apply not_elem_of_nil].
Qed.

(** The comparison on the two files the collaborators wrote. *)
Lemma compare_collaborator_files sheet a t out rows :
  columns sheet !! "ARTIST" = Some a → columns sheet !! "TITLE" = Some t →
  artist_title_to_csv sheet = Saved out →
  compare_csv_texts_vectorized out (woo_frame rows)
  = Ok (expected_result (artist_title_column a t) (id_cell <$> rows.*1) (VStr <$> rows.*2)).
Proof.
  intros Ha Ht Hout.
  destruct (artist_title_to_csv_kept sheet _ _ Ha Ht) as (out' & Hout' & Hcols & _).
  assert (out' = out) as -> by congruence.
  rewrite (vectorized_spec out (woo_frame rows) (kept (artist_title_column a t))
             (id_cell <$> rows.*1) (VStr <$> rows.*2)).
  - f_equal. apply expected_result_same_keys, kept_keys.
  - by rewrite Hcols, lookup_singleton_eq.
  - apply woo_frame_id.
  - apply woo_frame_name.
Qed.

(** X16.  The endpoint fails by steps.  A sheet without an ARTIST or a
    TITLE column gives the Excel failure whatever the catalog API answered;
    with a good sheet, a response body with a malformed item gives the
    WooCommerce failure; the comparison itself never raises on the two
    files the collaborators wrote.  A response is returned only from a good
    sheet and a good body, with status 200 and [unique_count] the length of
    [unique_ids]. *)
Theorem endpoint_fails_by_steps accepts sheet data :
  (¬ (has_column sheet "ARTIST" ∧ has_column sheet "TITLE") →
     ∃ e, ∀ data', process_data accepts sheet data' = inl (ExcelFailed e))
  ∧ (has_column sheet "ARTIST" ∧ has_column sheet "TITLE" → ¬ Forall item_ok data →
     ∃ e, process_data accepts sheet data = inl (WooFailed e))
  ∧ (∀ e, process_data accepts sheet data ≠ inl (InternalError (Raised e)))
  ∧ (∀ response, process_data accepts sheet data = inr response →
       has_column sheet "ARTIST" ∧ has_column sheet "TITLE"
       ∧ Forall item_ok data
       ∧ status response = 200
       ∧ unique_count response = length (unique_ids response)
       ∧ accepts (unique_ids response) = true).
Proof.
  unfold process_data.
  destruct (decide (has_column sheet "ARTIST" ∧ has_column sheet "TITLE")) as [Hcols|Hno].
  2:{ destruct (artist_title_to_csv_Status500 sheet Hno) as [e ->].
      split; [intros _; by exists e|]. split; [done|]. split; done. }
  destruct Hcols as [[a Ha] [t Ht]].
  destruct (artist_title_to_csv_kept sheet _ _ Ha Ht) as (out & Hout & _).
  assert (has_column sheet "ARTIST" ∧ has_column sheet "TITLE") as Hcols
    by (unfold has_column; rewrite Ha, Ht; eauto).
  rewrite Hout. split; [by intros Hno|].
  destruct (save_id_name_to_csv data) as [rows|e] eqn:Hsave.
  2:{ split; [intros _ _; by exists e|]. split; done. }
  pose proof (save_Saved_item_ok _ _ Hsave) as Hok.
  rewrite (compare_collaborator_files sheet a t out rows Ha Ht Hout).
  split; [done|].
  destruct (accepts _) eqn:Hacc; (split; [done|]); [|done].
  intros response [= <-]. simpl. by destruct Hcols.
Qed.

Lemma endpoint_fails_by_steps_witness :
  let sheet := mkFrame 1 {[ "ARTIST" := [VStr "Queen"] ]} in
  let good : gmap string json := <["id" := JInt 1]> {[ "name" := JStr "a" ]} in
  let bad : gmap string json := {[ "id" := JInt 2 ]} in
  ¬ (has_column sheet "ARTIST" ∧ has_column sheet "TITLE")
  ∧ ∃ e, process_data (forallb is_int) sheet [good] = inl (ExcelFailed e)
         ∧ process_data (forallb is_int) sheet [bad] = inl (ExcelFailed e).
Proof.
  intros sheet good bad.
  assert (¬ (has_column sheet "ARTIST" ∧ has_column sheet "TITLE")) as Hno.
  { apply (bool_decide_unpack _). vm_compute. exact I. }
  split; [exact Hno|].
  destruct (proj1 (endpoint_fails_by_steps (forallb is_int) sheet []) Hno) as [e He].
  exists e. split; apply He.
Defined.

Lemma expected_result_ints inventory ids names :
  Forall (λ v, is_int v = true) ids →
  Forall (λ v, is_int v = true) (expected_result inventory ids names).
Proof.
  intros Hints. apply Forall_forall. intros id Hid.
  apply elem_of_expected_result in Hid as (i & name & Hi & _).
  rewrite Forall_forall in Hints. apply Hints. by eapply list_elem_of_lookup_2.
Qed.

(** X17.  End to end: for a sheet with ARTIST and TITLE columns and a
    response body whose items have an integer [id] and a text [name], the
    endpoint answers with status 200 and the identifiers, in the order of
    the body, of the items whose decoded name, normalized, is none of the
    normalized "ARTIST - TITLE" keys of the sheet; [unique_count] is their
    number.  (The response model is taken to accept every list of
    integers.) *)
Theorem endpoint_reports_unmatched_items accepts sheet data a t :
  (∀ ids, Forall (λ v, is_int v = true) ids → accepts ids = true) →
  columns sheet !! "ARTIST" = Some a →
  columns sheet !! "TITLE" = Some t →
  Forall (λ item : gmap string json,
            (∃ z, item !! "id" = Some (JInt z)) ∧ ∃ name, item !! "name" = Some (JStr name))
         data →
  ∃ rows res,
    Forall2 decoded data rows
    ∧ res = (filter (λ r : value * value,
                       normalize r.2 ∉ normalize <$> artist_title_column a t)
                    (zip (id_cell <$> rows.*1) (VStr <$> rows.*2))).*1
    ∧ process_data accepts sheet data = inr (mkResponse 200 res (length res)).
Proof.
  intros Hacc Ha Ht Hdata.
  assert (Forall item_ok data) as Hok.
  { eapply Forall_impl; [exact Hdata|]. intros item [[z Hz] Hname]. split; eauto. }
  destruct (filtered_data_total data Hok) as [rows Hrows].
  pose proof (filtered_data_Ok _ _ Hrows) as Hdec.
  destruct (artist_title_to_csv_kept sheet _ _ Ha Ht) as (out & Hout & _).
  exists rows, (expected_result (artist_title_column a t) (id_cell <$> rows.*1)
                                (VStr <$> rows.*2)).
  split; [exact Hdec|]. split; [done|].
  unfold process_data, save_id_name_to_csv. rewrite Hout, Hrows. cbn [handle].
  rewrite (compare_collaborator_files sheet a t out rows Ha Ht Hout).
  rewrite Hacc; [done|]. apply expected_result_ints.
  apply Forall_fmap, Forall_fmap.
  clear Hrows Hok. induction Hdec as [|item [id name] data rows [Hid _] _ IH]; [done|].
  apply Forall_cons in Hdata as [[[z Hz] _] Hdata]. constructor; [|by apply IH].
  simpl in *. rewrite Hz in Hid. by injection Hid as <-.
Qed.

Lemma endpoint_reports_unmatched_items_witness :
  let a := [VStr "Simon & Garfunkel"; VStr "Queen"; VStr "Queen"] in
  let t := [VStr "Bookends"; VStr "Jazz"; VStr "Jazz"] in
  let sheet := mkFrame 3 (<["ARTIST" := a]> (<["TITLE" := t]> {[ "QTY" := [VInt 1; VInt 0; VInt 4] ]})) in
  let data : list (gmap string json) :=
    [ <["id" := JInt 11]> {[ "name" := JStr "simon &amp; garfunkel - bookends " ]};
      <["id" := JInt 12]> {[ "name" := JStr "Kiss - Alive" ]};
      <["id" := JInt 13]> {[ "name" := JStr "QUEEN - JAZZ" ]};
      <["id" := JInt 14]> {[ "name" := JStr "Queen  -  Jazz" ]} ] in
  (∀ ids, Forall (λ v, is_int v = true) ids → forallb is_int ids = true)
  ∧ columns sheet !! "ARTIST" = Some a
  ∧ columns sheet !! "TITLE" = Some t
  ∧ Forall (λ item : gmap string json,
              (∃ z, item !! "id" = Some (JInt z)) ∧ ∃ name, item !! "name" = Some (JStr name))
           data
  ∧ process_data (forallb is_int) sheet data = inr (mkResponse 200 [VInt 12; VInt 14] 2).
Proof.
  intros a t sheet data.
  assert (∀ ids, Forall (λ v, is_int v = true) ids → forallb is_int ids = true) as Hacc.
  { intros ids Hids. apply forallb_forall. intros v Hv%list_elem_of_In.
    rewrite Forall_forall in Hids. by apply Hids. }
  assert (columns sheet !! "ARTIST" = Some a) as Ha by apply lookup_insert_eq.
  assert (columns sheet !! "TITLE" = Some t) as Ht.
  { unfold sheet; simpl. rewrite lookup_insert_ne by done. apply lookup_insert_eq. }
  assert (Forall (λ item : gmap string json,
              (∃ z, item !! "id" = Some (JInt z)) ∧ ∃ name, item !! "name" = Some (JStr name))
           data) as Hdata.
  { repeat constructor; eauto. }
  split; [exact Hacc|]. split; [exact Ha|]. split; [exact Ht|]. split; [exact Hdata|].
  destruct (endpoint_reports_unmatched_items (forallb is_int) sheet data a t Hacc Ha Ht Hdata)
    as (rows & res & _ & _ & He).
  pose proof He as Hres. vm_compute in Hres. injection Hres as Hres _.
  rewrite He, <- Hres. reflexivity.
Defined.
